(** * goharproxy: a shallow embedding of harproxy.go

    The development follows the source file top to bottom in spirit:
    the host rewriter ([replaceHost], [AddHostEntries]), the capture hooks
    installed by [createProxy], the recorder loop [processEntriesFunc],
    [fillIpAddress], the drain loop [WaitForEntries], the lifecycle
    ([Start], [Stop]) and the control-plane handlers.

    Go values are modelled as the code has them: [int] and [int64] as [Z],
    strings as [string], slices as a backing array with a length, pointers
    that may be nil as [option], maps as [gmap]. Goroutines are modelled by
    small-step interleaving relations over an explicit shared state. *)

From Stdlib Require Import ZArith String Ascii.
From stdpp Require Import base tactics list gmap strings pretty.

Local Open Scope string_scope.
Local Open Scope list_scope.
Local Open Scope Z_scope.

(** ** Go slices *)

Module GoSlice.
Section slice.
Context {A : Type}.

(** A slice is a window on a backing array: [arr] is the array from the
    slice's first element to the end of the allocation (so its length is
    the capacity) and [len] is the slice length. *)
Record slice := Slice { arr : list A; len : nat }.

Definition cap (s : slice) : nat := length (arr s).

(** [make([]T, l, c)] with the zero value [z]. *)
Definition make (z : A) (l c : nat) : slice :=
  {| arr := replicate c z; len := l |}.

(** The elements a [range] loop visits. *)
Definition elems (s : slice) : list A := take (len s) (arr s).

(** Go keeps [len s <= cap s]. *)
Definition wf (s : slice) : Prop := (len s <= cap s)%nat.

(** [copy(dst[off:off+room], src)]: Go copies [min room (len src)]
    elements and leaves the rest of the array alone. *)
Definition copy_into (dst : list A) (off room : nat) (src : list A) : list A :=
  let k := Nat.min room (length src) in
  take off dst ++ take k src ++ drop (off + k) dst.

End slice.
Global Arguments slice : clear implicits.
End GoSlice.

(** ** The parts of [net/http] values the proxy looks at *)

Module GoHttp.
Record Request := {
  Method : string;
  URLHost : string;      (* req.URL.Host *)
  URLPath : string;      (* req.URL.Path *)
  ContentLength : Z;     (* int64 *)
  Body : list Byte.byte  (* the bytes the body reader yields *)
}.

Record Response := {
  StatusCode : Z;
  RespContentLength : Z;
  RespBody : list Byte.byte
}.

(** [req.URL.Host = h] *)
Definition setHost (req : Request) (h : string) : Request :=
  {| Method := Method req; URLHost := h; URLPath := URLPath req;
     ContentLength := ContentLength req; Body := Body req |}.
End GoHttp.

(** ** Host rewriting: [ProxyHosts], [AddHostEntries], [replaceHost] *)

Module HostRewriter.
Import GoSlice GoHttp.

Record ProxyHosts := { Host : string; NewHost : string }.

Definition zeroProxyHosts : ProxyHosts := {| Host := ""; NewHost := "" |}.

(** [hostEntries: make([]ProxyHosts, 0, 100)] in [NewHarProxyWithPort]. *)
Definition newHostEntries : slice ProxyHosts := make zeroProxyHosts 0 100.

(** [func (proxy *HarProxy) AddHostEntries(hostEntries []ProxyHosts)],
    as a function on the [hostEntries] field. *)
Definition AddHostEntries (entries : slice ProxyHosts)
    (hostEntries : list ProxyHosts) : slice ProxyHosts :=
  let m := len entries in
  let n := (m + length hostEntries)%nat in
  let backing :=
    if (cap entries <? n)%nat
    then (* newEntries := make(.., (n+1)*2); copy(newEntries, entries) *)
      copy_into (replicate ((n + 1) * 2) zeroProxyHosts) 0 ((n + 1) * 2)
                (elems entries)
    else arr entries in
  (* entries = entries[0:n]; copy(entries[m:n], hostEntries) *)
  {| arr := copy_into backing m (n - m) hostEntries; len := n |}.

(** The loop of [replaceHost] over the rules, on the host string:
    the first rule whose [Host] equals the request host replaces it and
    the function returns. *)
Fixpoint replaceHost_rules (rules : list ProxyHosts) (host : string) : string :=
  match rules with
  | [] => host
  | hostEntry :: rest =>
      if String.eqb host (Host hostEntry) then NewHost hostEntry
      else replaceHost_rules rest host
  end.

(** [func replaceHost(req *http.Request, harProxy *HarProxy)], returning
    the request it has updated in place. *)
Definition replaceHost (req : Request) (hostEntries : slice ProxyHosts) : Request :=
  setHost req (replaceHost_rules (elems hostEntries) (URLHost req)).

(** [handleRequest] returns the rewritten request and a nil response. *)
Definition handleRequest (req : Request) (hostEntries : slice ProxyHosts)
    : Request * option Response :=
  (replaceHost req hostEntries, None).

End HostRewriter.

(** ** Machine integers and instants *)

Module GoInt.
Definition minInt64 : Z := - 2 ^ 63.
Definition maxInt64 : Z := 2 ^ 63 - 1.

(** Two's complement wrap-around of [int64] arithmetic, and of [int] on
    the 64-bit platforms. *)
Definition wrap64 (z : Z) : Z := (z + 2 ^ 63) mod 2 ^ 64 - 2 ^ 63.

(** Go's [/] on integers truncates toward zero. *)
Definition div (a b : Z) : Z := Z.quot a b.
End GoInt.

Module GoTime.
(** A [time.Time] is read off the process clock; it is modelled by the
    clock reading in nanoseconds. *)
Definition Time : Type := Z.

(** [t.Sub(u)]: the duration [t-u] in nanoseconds, saturated to the
    [int64] range as [time.Time.Sub] does. *)
Definition Sub (t u : Time) : Z :=
  Z.max GoInt.minInt64 (Z.min GoInt.maxInt64 (t - u)).

(** [d.Nanoseconds()] is the identity on the [int64] count. *)
Definition Nanoseconds (d : Z) : Z := d.
End GoTime.

(** ** The [net] package as far as [fillIpAddress] uses it *)

Module GoNet.
(** [type IP []byte]. *)
Definition IP : Type := list Byte.byte.

(** What the resolver and the parsers of package [net] answer. They are
    not code of this repository; [fillIpAddress] takes them as an
    environment. [None] is Go's [nil] result or non-nil error. *)
Record Env := {
  SplitHostPort : string → option (string * string);
  ParseIP : string → option IP;
  LookupIP : string → option (list IP);
  (** [ip.String()] for an address that is not IPv4. *)
  String6 : IP → string
}.

Definition isZeros (p : list Byte.byte) : bool :=
  forallb (λ b, Byte.eqb b Byte.x00) p.

(** [ip[i] == b], for an index in range. *)
Definition byte_is (ip : IP) (i : nat) (b : Byte.byte) : bool :=
  match ip !! i with
  | Some x => Byte.eqb x b
  | None => false
  end.

(** [func (ip IP) To4() IP] *)
Definition To4 (ip : IP) : option IP :=
  if (length ip =? 4)%nat then Some ip
  else if (length ip =? 16)%nat
          && isZeros (take 10 ip)
          && byte_is ip 10 Byte.xff
          && byte_is ip 11 Byte.xff
  then Some (take 4 (drop 12 ip))
  else None.

Definition digit (n : N) : ascii := ascii_of_N (48 + n).

(** [ubtoa]: a byte in decimal, without leading zeros. *)
Definition ubtoa (b : Byte.byte) : string :=
  let n := Byte.to_N b in
  if (n <? 10)%N then String (digit n) ""
  else if (n <? 100)%N
  then String (digit (n / 10)) (String (digit (n mod 10)) "")
  else String (digit (n / 100))
         (String (digit (n / 10 mod 10)) (String (digit (n mod 10)) "")).

Definition dotted (p4 : IP) : string :=
  String.concat "." (map ubtoa p4).

(** [func (ip IP) String() string]: dotted decimal when [To4] succeeds. *)
Definition IP_String (env : Env) (ip : IP) : string :=
  match To4 ip with
  | Some p4 => dotted p4
  | None => String6 env ip
  end.

(** The conversion [string(ip)] of a byte slice: the bytes themselves. *)
Definition string_of_IP (ip : IP) : string := string_of_list_byte ip.
End GoNet.

(** ** HAR entries and [fillIpAddress] *)

Module Har.
Import GoHttp GoNet.
Section entry.
(** [HarRequest] and [HarResponse] are declared in the package's other
    file; an entry only stores them. *)
Context {HarRequest HarResponse : Type}.

Record HarEntry := {
  Request : HarRequest;
  Response : HarResponse;
  StartedDateTime : GoTime.Time;
  Time : Z;                   (* int64, milliseconds *)
  ServerIpAddress : string
}.

(** [harEntry.ServerIpAddress = a] *)
Definition setServerIpAddress (harEntry : HarEntry) (a : string) : HarEntry :=
  {| Request := Request harEntry; Response := Response harEntry;
     StartedDateTime := StartedDateTime harEntry; Time := Time harEntry;
     ServerIpAddress := a |}.

(** The [range ipaddr] loop: the first address with [ip.To4() != nil]. *)
Fixpoint firstTo4 (ipaddr : list IP) : option IP :=
  match ipaddr with
  | [] => None
  | ip :: rest =>
      match To4 ip with
      | Some _ => Some ip
      | None => firstTo4 rest
      end
  end.

(** [func fillIpAddress(req *http.Request, harEntry *HarEntry)] *)
Definition fillIpAddress (env : Env) (req : GoHttp.Request)
    (harEntry : HarEntry) : HarEntry :=
  let host :=
    match SplitHostPort env (URLHost req) with
    | Some (host, _) => host
    | None => URLHost req
    end in
  let harEntry :=
    match ParseIP env host with
    | Some ip => setServerIpAddress harEntry (string_of_IP ip)
    | None => harEntry
    end in
  match LookupIP env host with
  | Some ipaddr =>
      match firstTo4 ipaddr with
      | Some ip => setServerIpAddress harEntry (IP_String env ip)
      | None => harEntry
      end
  | None => harEntry
  end.
End entry.
Global Arguments HarEntry : clear implicits.
End Har.

(** ** The capture hooks installed by [createProxy] *)

Module Capture.
Import GoHttp.

(** [type reqAndResp struct]. [req] is set by the request hook before the
    value can be published; [resp] stays nil when the round trip fails. *)
Record reqAndResp := {
  req : Request;
  start : GoTime.Time;
  resp : option Response;
  end_ : GoTime.Time
}.

(** What [tr.DetailedRoundTrip(req)] yields: a response or nil, an error or
    nil, and the time the exchange with the origin server took. *)
Record RoundTrip := {
  rt_resp : option Response;
  rt_err : option string;
  rt_latency : Z
}.

(** The world the hooks run in: the process clock and what has been sent on
    [proxy.entryChannel]. *)
Record World := { clock : GoTime.Time; sent : list reqAndResp }.

(** A goroutine either goes on with a value or panics. *)
Inductive Res (A : Type) :=
  | Ok (a : A)
  | Panic (msg : string).
Global Arguments Ok {A} a.
Global Arguments Panic {A} msg.

Definition M (A : Type) : Type := World → Res A * World.

Definition ret {A} (a : A) : M A := λ w, (Ok a, w).

Definition bind {A B} (k : A → M B) (m : M A) : M B :=
  λ w, match m w with
       | (Ok a, w') => k a w'
       | (Panic msg, w') => (Panic msg, w')
       end.

#[global] Instance M_ret : MRet M := @ret.
#[global] Instance M_bind : MBind M := @bind.

(** [time.Now()] *)
Definition Now : M GoTime.Time := λ w, (Ok (clock w), w).

(** Time passing while the forwarding engine or the network is at work. *)
Definition elapse (d : Z) : M unit :=
  λ w, (Ok tt, {| clock := clock w + d; sent := sent w |}).

(** [proxy.entryChannel <- x], on a channel that is open and has a
    receiver. The channel being closed by the goroutine of [Start], on
    which the send panics, is not in this module: the interleaving model
    [Instance] has it. *)
Definition publish (x : reqAndResp) : M unit :=
  λ w, (Ok tt, {| clock := clock w; sent := sent w ++ [x] |}).

(** Reading a field through a pointer that may be nil. *)
Definition deref {A} (p : option A) : M A :=
  match p with
  | Some a => mret a
  | None => λ w, (Panic "invalid memory address or nil pointer dereference", w)
  end.

(** [copyReadCloser]: the reader is read to its end through a tee, and two
    readers over the same bytes are returned. [len] only sizes the buffer
    that [make] allocates; an allocation that fails for its size is not
    modelled. *)
Definition copyReadCloser (body : list Byte.byte) (len : Z)
    : list Byte.byte * list Byte.byte :=
  (body, body).

Definition copyReq (r : Request) : Request * Request :=
  let '(b, bc) := copyReadCloser (Body r) (ContentLength r) in
  ({| Method := Method r; URLHost := URLHost r; URLPath := URLPath r;
      ContentLength := ContentLength r; Body := b |},
   {| Method := Method r; URLHost := URLHost r; URLPath := URLPath r;
      ContentLength := ContentLength r; Body := bc |}).

Definition copyResp (r : Response) : Response * Response :=
  let '(b, bc) := copyReadCloser (RespBody r) (RespContentLength r) in
  ({| StatusCode := StatusCode r; RespContentLength := RespContentLength r;
      RespBody := b |},
   {| StatusCode := StatusCode r; RespContentLength := RespContentLength r;
      RespBody := bc |}).

Definition setResp (x : reqAndResp) (r : option Response) : reqAndResp :=
  {| req := req x; start := start x; resp := r; end_ := end_ x |}.

Definition setEnd (x : reqAndResp) (t : GoTime.Time) : reqAndResp :=
  {| req := req x; start := start x; resp := resp x; end_ := t |}.

Section hooks.
(** [captureContent] is a package variable declared in the package's other
    file; [tr] is the transport, whose answers are given by [wire]. *)
Variable captureContent : bool.
Variable wire : Request → RoundTrip.
Variable hostEntries : GoSlice.slice HostRewriter.ProxyHosts.

(** [tr.DetailedRoundTrip(req)]: the exchange takes its time, then the
    result is there. *)
Definition DetailedRoundTrip (r : Request) : M RoundTrip :=
  elapse (rt_latency (wire r));; mret (wire r).

(** The function given to [proxy.Proxy.OnRequest().DoFunc]: it returns
    the request to forward and the [reqAndResp] its round-trip closure
    holds. The captured request shares its URL with the forwarded one, so
    the host written by [replaceHost] shows in both. *)
Definition OnRequestFunc (r : Request) : M (Request * reqAndResp) :=
  t ← Now;
  let '(r, captured) :=
    if captureContent && (0 <? ContentLength r) then copyReq r
    else (r, r) in
  let '(r', _) := HostRewriter.handleRequest r hostEntries in
  mret (r', {| req := setHost captured (URLHost r'); start := t;
              resp := None; end_ := 0 |}).

(** The [goproxy.RoundTripperFunc] closure set as [ctx.RoundTripper]. *)
Definition RoundTripperFunc (x : reqAndResp) (r : Request)
    : M (option Response * option string) :=
  t ← Now;
  let x := setEnd x t in
  rt ← DetailedRoundTrip r;
  capture ←
    (if captureContent
     then rp ← deref (rt_resp rt); mret (0 <? RespContentLength rp)
     else mret false);
  '(out, x) ←
    (if capture : bool
     then rp ← deref (rt_resp rt);
          let '(rp, rc) := copyResp rp in
          mret (Some rp, setResp x (Some rc))
     else mret (rt_resp rt, setResp x (rt_resp rt)));
  publish x;;
  mret (out, rt_err rt).

(** One request through the forwarding engine: the request hook, the
    engine's own work, then the round trip through the closure. *)
Definition forward (engine : Z) (r : Request)
    : M (option Response * option string) :=
  '(r', x) ← OnRequestFunc r;
  elapse engine;;
  RoundTripperFunc x r'.
End hooks.

Section recorder.
Context {HarRequest HarResponse : Type}.
(** [parseRequest] and [parseResponse] are defined in the package's other
    file. *)
Variable parseRequest : Request → HarRequest.
Variable parseResponse : option Response → HarResponse.
Variable env : GoNet.Env.

(** The body of the goroutine started by [processEntriesFunc] for one
    received value, up to the call of [addEntry]. *)
Definition newEntry (x : reqAndResp) : Har.HarEntry HarRequest HarResponse :=
  let harEntry :=
    {| Har.Request := parseRequest (req x);
       Har.StartedDateTime := start x;
       Har.Response := parseResponse (resp x);
       Har.Time :=
         GoInt.div (GoTime.Nanoseconds (GoTime.Sub (end_ x) (start x)))
                   1000000;
       Har.ServerIpAddress := "" |} in
  Har.fillIpAddress env (req x) harEntry.
End recorder.

End Capture.

(** ** The drain loop [WaitForEntries] *)

Module Drain.
(** What the loop does besides reading shared state. *)
Inductive Event :=
  | LogWaiting                (* log.Println("WAITING FOR ENTRIES") *)
  | Sleep (seconds : Z)       (* time.Sleep(1 * time.Second) *)
  | LogGivingUp (secs : Z).   (* log.Printf("GIVING UP WAITING ...", secs) *)

(** What one evaluation of the loop condition reads:
    [len(proxy.entryChannel)] and [proxy.entriesInProcess]. *)
Record Obs := { chanLen : nat; inProcess : Z }.

(** [len(proxy.entryChannel) > 0 || proxy.entriesInProcess > 0] *)
Definition busy (o : Obs) : bool :=
  (0 <? chanLen o)%nat || (0 <? inProcess o).

(** What a turn that leaves [secs] at [i] does. *)
Definition turnEvents (i : Z) : list Event :=
  [LogWaiting; Sleep 1] ++ (if 10 <? i then [LogGivingUp i] else []).

(** One turn of the loop body, from the value of [secs] before it:
    the new [secs] and what the turn did. *)
Definition turn (secs : Z) : Z * list Event :=
  let secs := GoInt.wrap64 (secs + 1) in
  (secs, turnEvents secs).

(** The loop, from its [poll]-th evaluation of the condition on; [obs]
    gives what each evaluation reads. [fuel] bounds the number of
    evaluations: [None] means the loop is still running after them. The
    function has no result besides returning. *)
Fixpoint WaitForEntries_from (fuel : nat) (obs : nat → Obs)
    (poll : nat) (secs : Z) : option (list Event) :=
  match fuel with
  | O => None
  | S fuel =>
      if busy (obs poll) then
        let '(secs, evs) := turn secs in
        match WaitForEntries_from fuel obs (S poll) secs with
        | Some rest => Some (evs ++ rest)
        | None => None
        end
      else Some []
  end.

(** [func (proxy *HarProxy) WaitForEntries()] *)
Definition WaitForEntries (fuel : nat) (obs : nat → Obs) : option (list Event) :=
  WaitForEntries_from fuel obs 0 0.
End Drain.

(** ** One proxy instance and its goroutines *)

Module Instance.
Section model.
(** [T] is what travels on [entryChannel] ([reqAndResp]), [E] what the log
    holds ([HarEntry]); [newEntry] builds the one from the other. *)
Context {T E : Type}.
Variable newEntry : T → E.

(** A channel: capacity, buffered values, closed or not. *)
Record chan := { ccap : nat; cbuf : list T; cclosed : bool }.

(** [make(chan reqAndResp, c)]; [make(chan reqAndResp)] is [make_chan 0]. *)
Definition make_chan (c : nat) : chan :=
  {| ccap := c; cbuf := []; cclosed := false |}.

(** [len(ch)] *)
Definition chan_len (ch : chan) : nat := length (cbuf ch).

(** A connection handler started by [http.Serve], running the hooks of
    [createProxy] for one request. *)
Inductive handlerPc :=
  | Forwarding (x : T)   (* before [proxy.entryChannel <- *reqAndResp] *)
  | Published            (* the send is done *)
  | SendPanicked.        (* send on a closed channel *)

(** [processEntriesFunc] *)
Inductive consumerPc :=
  | Receiving                 (* at [<-proxy.entryChannel] *)
  | Received (x : T)          (* [ok]; before [entriesInProcess += 1] *)
  | Incrementing (x : T) (n : Z)  (* has read [n], will write [n+1] *)
  | ConsumerExited.           (* [!ok]: left the loop *)

(** The goroutine started for each received value *)
Inductive workerPc :=
  | Building (x : T)          (* before [proxy.HarLog.addEntry] *)
  | Appended                  (* before [entriesInProcess -= 1] *)
  | Decrementing (n : Z)      (* has read [n], will write [n-1] *)
  | WorkerExited.

(** The goroutine started by [Start] *)
Inductive serverPc :=
  | NotStarted
  | Serving                   (* inside [http.Serve] *)
  | ServeReturned             (* before [close(proxy.entryChannel)] *)
  | ChannelClosed             (* at [proxy.isDone <- true] *)
  | ServerExited.

(** A caller of [Stop] *)
Inductive stopPc :=
  | NotStopping
  | WgAdded                   (* after [StoppableListener.Add(1)] *)
  | AwaitingDone              (* listener closed; at [<-proxy.isDone] *)
  | GotDone                   (* before [StoppableListener.Done()] *)
  | StopReturned.

(** A caller of [getHarLog] *)
Inductive readerPc :=
  | Idle
  | Waiting (secs : Z)        (* inside [WaitForEntries] *)
  | Drained                   (* [WaitForEntries] has returned *)
  | Logged                    (* after the [log.Println] of the log *)
  | Encoded.                  (* response written; before [ClearEntries] *)

Record state := {
  entryChannel : chan;
  entriesInProcess : Z;
  HarLog : list E;               (* proxy.HarLog.Entries *)
  listening : bool;              (* the listener accepts connections *)
  waitGroup : Z;                 (* StoppableListener.WaitGroup *)
  server : serverPc;
  stopper : stopPc;
  consumer : consumerPc;
  handlers : list handlerPc;
  workers : list workerPc;
  reader : readerPc;
  responses : list (list E)      (* entries of each document sent by getHarLog *)
}.

(** Modelled from the spec: [newHarLog] and [makeNewEntries] are defined
    in the package's other file; a new or reset log is the empty
    sequence. *)
Definition makeNewEntries : list E := [].

(** Modelled from the spec: [addEntry] is defined in the package's other
    file; it appends the entry to the sequence as one indivisible
    action. *)
Definition addEntry (log : list E) (e : E) : list E := log ++ [e].

(** [NewHarProxyWithPort]: the fields as initialised there, and the
    consumer started by [createProxy]. *)
Definition NewHarProxy : state :=
  {| entryChannel := make_chan 0;
     entriesInProcess := 0;
     HarLog := makeNewEntries;
     listening := false;
     waitGroup := 0;
     server := NotStarted;
     stopper := NotStopping;
     consumer := Receiving;
     handlers := [];
     workers := [];
     reader := Idle;
     responses := [] |}.

(** The loop condition of [WaitForEntries]. *)
Definition busy (s : state) : bool :=
  Drain.busy {| Drain.chanLen := chan_len (entryChannel s);
                Drain.inProcess := entriesInProcess s |}.

(** Assignments to single fields. *)
Definition set_entryChannel (v : chan) (s : state) : state :=
  {| entryChannel := v; entriesInProcess := entriesInProcess s;
     HarLog := HarLog s; listening := listening s;
     waitGroup := waitGroup s; server := server s; stopper := stopper s;
     consumer := consumer s; handlers := handlers s;
     workers := workers s; reader := reader s; responses := responses s |}.
Definition set_entriesInProcess (v : Z) (s : state) : state :=
  {| entryChannel := entryChannel s; entriesInProcess := v;
     HarLog := HarLog s; listening := listening s;
     waitGroup := waitGroup s; server := server s; stopper := stopper s;
     consumer := consumer s; handlers := handlers s;
     workers := workers s; reader := reader s; responses := responses s |}.
Definition set_HarLog (v : list E) (s : state) : state :=
  {| entryChannel := entryChannel s;
     entriesInProcess := entriesInProcess s; HarLog := v;
     listening := listening s; waitGroup := waitGroup s;
     server := server s; stopper := stopper s; consumer := consumer s;
     handlers := handlers s; workers := workers s; reader := reader s;
     responses := responses s |}.
Definition set_listening (v : bool) (s : state) : state :=
  {| entryChannel := entryChannel s;
     entriesInProcess := entriesInProcess s; HarLog := HarLog s;
     listening := v; waitGroup := waitGroup s; server := server s;
     stopper := stopper s; consumer := consumer s;
     handlers := handlers s; workers := workers s; reader := reader s;
     responses := responses s |}.
Definition set_waitGroup (v : Z) (s : state) : state :=
  {| entryChannel := entryChannel s;
     entriesInProcess := entriesInProcess s; HarLog := HarLog s;
     listening := listening s; waitGroup := v; server := server s;
     stopper := stopper s; consumer := consumer s;
     handlers := handlers s; workers := workers s; reader := reader s;
     responses := responses s |}.
Definition set_server (v : serverPc) (s : state) : state :=
  {| entryChannel := entryChannel s;
     entriesInProcess := entriesInProcess s; HarLog := HarLog s;
     listening := listening s; waitGroup := waitGroup s; server := v;
     stopper := stopper s; consumer := consumer s;
     handlers := handlers s; workers := workers s; reader := reader s;
     responses := responses s |}.
Definition set_stopper (v : stopPc) (s : state) : state :=
  {| entryChannel := entryChannel s;
     entriesInProcess := entriesInProcess s; HarLog := HarLog s;
     listening := listening s; waitGroup := waitGroup s;
     server := server s; stopper := v; consumer := consumer s;
     handlers := handlers s; workers := workers s; reader := reader s;
     responses := responses s |}.
Definition set_consumer (v : consumerPc) (s : state) : state :=
  {| entryChannel := entryChannel s;
     entriesInProcess := entriesInProcess s; HarLog := HarLog s;
     listening := listening s; waitGroup := waitGroup s;
     server := server s; stopper := stopper s; consumer := v;
     handlers := handlers s; workers := workers s; reader := reader s;
     responses := responses s |}.
Definition set_handlers (v : list handlerPc) (s : state) : state :=
  {| entryChannel := entryChannel s;
     entriesInProcess := entriesInProcess s; HarLog := HarLog s;
     listening := listening s; waitGroup := waitGroup s;
     server := server s; stopper := stopper s; consumer := consumer s;
     handlers := v; workers := workers s; reader := reader s;
     responses := responses s |}.
Definition set_workers (v : list workerPc) (s : state) : state :=
  {| entryChannel := entryChannel s;
     entriesInProcess := entriesInProcess s; HarLog := HarLog s;
     listening := listening s; waitGroup := waitGroup s;
     server := server s; stopper := stopper s; consumer := consumer s;
     handlers := handlers s; workers := v; reader := reader s;
     responses := responses s |}.
Definition set_reader (v : readerPc) (s : state) : state :=
  {| entryChannel := entryChannel s;
     entriesInProcess := entriesInProcess s; HarLog := HarLog s;
     listening := listening s; waitGroup := waitGroup s;
     server := server s; stopper := stopper s; consumer := consumer s;
     handlers := handlers s; workers := workers s; reader := v;
     responses := responses s |}.
Definition set_responses (v : list (list E)) (s : state) : state :=
  {| entryChannel := entryChannel s;
     entriesInProcess := entriesInProcess s; HarLog := HarLog s;
     listening := listening s; waitGroup := waitGroup s;
     server := server s; stopper := stopper s; consumer := consumer s;
     handlers := handlers s; workers := workers s; reader := reader s;
     responses := v |}.

(** The steps of the goroutines. A label names the goroutine that moves
    and the statement it executes. *)
Inductive label :=
  | StartServe            (* Start: listener bound, the goroutine enters http.Serve *)
  | Accept (x : T)        (* http.Serve accepts; the handler will publish [x] *)
  | Publish (i : nat)     (* handler [i]: the send on proxy.entryChannel *)
  | ConsumerReceive       (* the receive, from the buffer or a closed channel *)
  | ConsumerLoad          (* [entriesInProcess += 1]: the read *)
  | ConsumerStore         (* the write, then [go func()] *)
  | WorkerAppend (j : nat)  (* worker [j]: [proxy.HarLog.addEntry] *)
  | WorkerLoad (j : nat)    (* [entriesInProcess -= 1]: the read *)
  | WorkerStore (j : nat)   (* the write *)
  | ServeReturn           (* http.Serve returns *)
  | CloseChannel          (* [close(proxy.entryChannel)] *)
  | SignalDone            (* [proxy.isDone <- true] meets [<-proxy.isDone] *)
  | StopAdd               (* Stop: [StoppableListener.Add(1)] *)
  | StopClose             (* [StoppableListener.Close()] *)
  | StopDone              (* [StoppableListener.Done()], Stop returns *)
  | CallWaitForEntries    (* getHarLog: enters WaitForEntries *)
  | Poll                  (* one evaluation of the loop condition *)
  | LogEntries            (* [json.Marshal] and [log.Println] *)
  | EncodeLog             (* [json.NewEncoder(w).Encode(harProxy.HarLog)] *)
  | ClearEntries.         (* [harProxy.ClearEntries()] *)

(** A send on [entryChannel] by handler [i] holding [x]. On a closed
    channel it panics. A receiver parked on the empty channel takes the
    value directly; otherwise the value goes to the buffer if there is
    room, and the sender stays blocked if there is none. *)
Definition send (i : nat) (x : T) (s : state) : option state :=
  let ch := entryChannel s in
  if cclosed ch then Some (set_handlers (<[i := SendPanicked]> (handlers s)) s)
  else
    match consumer s, cbuf ch with
    | Receiving, [] =>
        Some (set_consumer (Received x)
                (set_handlers (<[i := Published]> (handlers s)) s))
    | _, _ =>
        if (length (cbuf ch) <? ccap ch)%nat
        then Some (set_entryChannel
                     {| ccap := ccap ch; cbuf := cbuf ch ++ [x];
                        cclosed := false |}
                     (set_handlers (<[i := Published]> (handlers s)) s))
        else None
    end.

(** One step. [http.Serve] starts a handler goroutine for each connection
    it accepts and does not wait for them when it returns; it may return
    at any time it is serving (it does when [Accept] fails, which closing
    the listener brings about). The two statements of an update of
    [entriesInProcess] are steps of their own, since nothing makes the
    update indivisible. [isDone] has no buffer, so its send and its receive
    are one step. [Stop] before [Start] has no step here, and one call of
    [Stop] is followed: a second call has no step either. *)
Definition step (l : label) (s : state) : option state :=
  match l with
  | StartServe =>
      match server s with
      | NotStarted => Some (set_listening true (set_server Serving s))
      | _ => None
      end
  | Accept x =>
      match server s with
      | Serving =>
          if listening s
          then Some (set_handlers (handlers s ++ [Forwarding x]) s)
          else None
      | _ => None
      end
  | Publish i =>
      match handlers s !! i with
      | Some (Forwarding x) => send i x s
      | _ => None
      end
  | ConsumerReceive =>
      match consumer s with
      | Receiving =>
          let ch := entryChannel s in
          match cbuf ch with
          | x :: rest =>
              Some (set_consumer (Received x)
                      (set_entryChannel
                         {| ccap := ccap ch; cbuf := rest;
                            cclosed := cclosed ch |} s))
          | [] =>
              if cclosed ch then Some (set_consumer ConsumerExited s)
              else None
          end
      | _ => None
      end
  | ConsumerLoad =>
      match consumer s with
      | Received x =>
          Some (set_consumer (Incrementing x (entriesInProcess s)) s)
      | _ => None
      end
  | ConsumerStore =>
      match consumer s with
      | Incrementing x n =>
          Some (set_consumer Receiving
                  (set_workers (workers s ++ [Building x])
                     (set_entriesInProcess (GoInt.wrap64 (n + 1)) s)))
      | _ => None
      end
  | WorkerAppend j =>
      match workers s !! j with
      | Some (Building x) =>
          Some (set_HarLog (addEntry (HarLog s) (newEntry x))
                  (set_workers (<[j := Appended]> (workers s)) s))
      | _ => None
      end
  | WorkerLoad j =>
      match workers s !! j with
      | Some Appended =>
          Some (set_workers
                  (<[j := Decrementing (entriesInProcess s)]> (workers s)) s)
      | _ => None
      end
  | WorkerStore j =>
      match workers s !! j with
      | Some (Decrementing n) =>
          Some (set_entriesInProcess (GoInt.wrap64 (n - 1))
                  (set_workers (<[j := WorkerExited]> (workers s)) s))
      | _ => None
      end
  | ServeReturn =>
      match server s with
      | Serving => Some (set_server ServeReturned s)
      | _ => None
      end
  | CloseChannel =>
      match server s with
      | ServeReturned =>
          let ch := entryChannel s in
          Some (set_server ChannelClosed
                  (set_entryChannel
                     {| ccap := ccap ch; cbuf := cbuf ch; cclosed := true |}
                     s))
      | _ => None
      end
  | SignalDone =>
      match server s, stopper s with
      | ChannelClosed, AwaitingDone =>
          Some (set_stopper GotDone (set_server ServerExited s))
      | _, _ => None
      end
  | StopAdd =>
      match stopper s, server s with
      | NotStopping, NotStarted => None
      | NotStopping, _ =>
          Some (set_stopper WgAdded (set_waitGroup (waitGroup s + 1) s))
      | _, _ => None
      end
  | StopClose =>
      match stopper s with
      | WgAdded => Some (set_stopper AwaitingDone (set_listening false s))
      | _ => None
      end
  | StopDone =>
      match stopper s with
      | GotDone =>
          Some (set_stopper StopReturned (set_waitGroup (waitGroup s - 1) s))
      | _ => None
      end
  | CallWaitForEntries =>
      match reader s with
      | Idle => Some (set_reader (Waiting 0) s)
      | _ => None
      end
  | Poll =>
      match reader s with
      | Waiting secs =>
          if busy s
          then Some (set_reader (Waiting (GoInt.wrap64 (secs + 1))) s)
          else Some (set_reader Drained s)
      | _ => None
      end
  | LogEntries =>
      match reader s with
      | Drained => Some (set_reader Logged s)
      | _ => None
      end
  | EncodeLog =>
      match reader s with
      | Logged =>
          Some (set_reader Encoded
                  (set_responses (responses s ++ [HarLog s]) s))
      | _ => None
      end
  | ClearEntries =>
      match reader s with
      | Encoded => Some (set_reader Idle (set_HarLog makeNewEntries s))
      | _ => None
      end
  end.

(** A schedule is a list of labels; [run] executes it and is [None] when
    some step of it cannot be taken. *)
Fixpoint run (ls : list label) (s : state) : option state :=
  match ls with
  | [] => Some s
  | l :: ls =>
      match step l s with
      | Some s' => run ls s'
      | None => None
      end
  end.

(** The states an instance can be in. *)
Definition reachable (s : state) : Prop :=
  ∃ ls, run ls NewHarProxy = Some s.

(** [http.Serve] has returned. *)
Definition serve_returned (s : state) : bool :=
  match server s with
  | ServeReturned | ChannelClosed | ServerExited => true
  | _ => false
  end.

(** Some handler has yet to send on [entryChannel]. *)
Definition publish_pending (s : state) : bool :=
  existsb (λ h, match h with Forwarding _ => true | _ => false end)
          (handlers s).

(** The number of transactions sent on [entryChannel]. *)
Definition published (s : state) : nat :=
  length (List.filter
            (λ h, match h with Published => true | _ => false end)
            (handlers s)).

(** The consumer has received a value and has not yet started its
    worker: 1 if so, 0 if not. *)
Definition holding (s : state) : nat :=
  match consumer s with
  | Received _ | Incrementing _ _ => 1
  | _ => 0
  end.

(** No worker is still before its call of [addEntry]. *)
Definition all_appended (s : state) : bool :=
  forallb (λ w, match w with Building _ => false | _ => true end)
          (workers s).

(** [Stop] has closed the listener. *)
Definition stop_closed (s : state) : bool :=
  match stopper s with
  | AwaitingDone | GotDone | StopReturned => true
  | _ => false
  end.

(** The transactions of the connections a schedule accepts, in order;
    handler [i] of the state the schedule leads to forwards the [i]-th of
    them. *)
Definition accepted (ls : list label) : list T :=
  omap (λ l, match l with Accept x => Some x | _ => None end) ls.

(** Of the values [xs], those at the positions where [f] holds of the
    goroutine at the same position in [gs]. *)
Fixpoint pick {A : Type} (f : A → bool) (gs : list A) (xs : list T) : list T :=
  match gs, xs with
  | g :: gs, x :: xs => if f g then x :: pick f gs xs else pick f gs xs
  | _, _ => []
  end.

Definition has_sent (h : handlerPc) : bool :=
  match h with Published => true | _ => false end.

Definition has_appended (w : workerPc) : bool :=
  match w with Building _ => false | _ => true end.

(** The transactions that were sent on [entryChannel] when schedule [ls]
    has led to state [s]. *)
Definition published_txs (ls : list label) (s : state) : list T :=
  pick has_sent (handlers s) (accepted ls).

(** The value the consumer has received and not yet handed to a worker. *)
Definition held (s : state) : list T :=
  match consumer s with
  | Received x | Incrementing x _ => [x]
  | _ => []
  end.

(** What a schedule [ls] that leads to [s] keeps of the transactions,
    [wtx] being the transactions of the workers in the order the workers
    were started: handlers and workers that still hold their transaction
    hold the one at their position, the transactions sent are those of the
    workers and the one the consumer holds, and the log has the entries of
    the workers that are past [addEntry]. *)
Definition tracks (ls : list label) (s : state) (wtx : list T) : Prop :=
  length (handlers s) = length (accepted ls)
  ∧ (∀ i x, handlers s !! i = Some (Forwarding x) → accepted ls !! i = Some x)
  ∧ length (workers s) = length wtx
  ∧ (∀ j x, workers s !! j = Some (Building x) → wtx !! j = Some x)
  ∧ published_txs ls s ≡ₚ wtx ++ held s
  ∧ HarLog s ≡ₚ map newEntry (pick has_appended (workers s) wtx).
End model.
Global Arguments chan : clear implicits.
Global Arguments handlerPc : clear implicits.
Global Arguments consumerPc : clear implicits.
Global Arguments workerPc : clear implicits.
Global Arguments state : clear implicits.
Global Arguments label : clear implicits.
End Instance.

(** ** The control plane: [proxyHandler] and the functions it calls *)

Module GoStrings.
(** [s[n:]] for [n <= len(s)] *)
Fixpoint drop (n : nat) (s : string) : string :=
  match n, s with
  | O, _ => s
  | S n, String _ rest => drop n rest
  | S _, EmptyString => EmptyString
  end.

(** [strings.HasPrefix(s, p)] *)
Definition HasPrefix (s p : string) : bool := String.prefix p s.

(** [strings.Contains(s, sub)] *)
Fixpoint Contains (s sub : string) : bool :=
  HasPrefix s sub ||
  match s with
  | EmptyString => false
  | String _ rest => Contains rest sub
  end.

(** [strings.HasSuffix(s, suffix)] *)
Definition HasSuffix (s suffix : string) : bool :=
  (String.length suffix <=? String.length s)%nat
  && String.eqb (drop (String.length s - String.length suffix) s) suffix.

Definition isDigit (c : ascii) : bool :=
  let n := N_of_ascii c in (48 <=? n)%N && (n <=? 57)%N.

(** The longest prefix of decimal digits. *)
Fixpoint digits (s : string) : string :=
  match s with
  | String c rest => if isDigit c then String c (digits rest) else EmptyString
  | EmptyString => EmptyString
  end.

(** The text from the first ['/'] on, if there is one. *)
Fixpoint fromSlash (s : string) : option string :=
  match s with
  | EmptyString => None
  | String c rest =>
      if Ascii.eqb c "/" then Some rest else fromSlash rest
  end.

Fixpoint decimal (acc : Z) (s : string) : Z :=
  match s with
  | EmptyString => acc
  | String c rest => decimal (10 * acc + (Z.of_N (N_of_ascii c) - 48)) rest
  end.

(** [strconv.Atoi] on a string of decimal digits with its error dropped:
    0 for the empty string, the largest [int] when out of range. *)
Definition Atoi (s : string) : Z := Z.min (decimal 0 s) GoInt.maxInt64.
End GoStrings.

Module ControlPlane.
Import GoStrings.
Section server.
Context {T E : Type}.
Variable newEntry : T → E.

(** A [HarProxy] value: the port and the state its goroutines share. *)
Record HarProxy := {
  Port : Z;
  hostEntries : GoSlice.slice HostRewriter.ProxyHosts;
  instance : Instance.state T E
}.

(** [portAndProxy map[int]*HarProxy] *)
Abbreviation registry := (gmap Z HarProxy).

(** What the operating system answers to [net.Listen("tcp", ":port")]:
    the port the listener is bound to ([GetPort(l)]), or [None] for an
    error. *)
Variable Listen : Z → option Z.

(** [func NewHarProxyWithPort(port int) *HarProxy] *)
Definition NewHarProxyWithPort (port : Z) : HarProxy :=
  {| Port := port;
     hostEntries := HostRewriter.newHostEntries;
     instance := Instance.NewHarProxy |}.

(** [func NewHarProxy() *HarProxy] *)
Definition NewHarProxy : HarProxy := NewHarProxyWithPort 0.

(** How a call that may end the process comes out. *)
Inductive Outcome (A : Type) :=
  | Returned (a : A)
  | Exited (code : Z).     (* log.Fatal: the message is printed, then os.Exit(1) *)
Global Arguments Returned {A} a.
Global Arguments Exited {A} code.

(** [func (proxy *HarProxy) Start()]: on an error of [net.Listen] the
    call ends in [log.Fatal]; otherwise the port is the one bound and the
    goroutine that serves is started. *)
Definition Start (proxy : HarProxy) : Outcome HarProxy :=
  match Listen (Port proxy) with
  | None => Exited 1
  | Some port =>
      Returned
        {| Port := port; hostEntries := hostEntries proxy;
           instance :=
             default (instance proxy)
               (Instance.step newEntry Instance.StartServe (instance proxy)) |}
  end.

(** The bodies the handlers write. *)
Inductive Body :=
  | PortBody (port : Z)           (* ProxyServerPort *)
  | MessageBody (msg : string)    (* ProxyServerMessage *)
  | ErrorBody (msg : string)      (* ProxyServerErr *)
  | HarBody (entries : list E).   (* the HAR document *)

Record Reply := { status : Z; body : Body }.

(** [func createNewHarProxy(w http.ResponseWriter)]: the reply written and
    the registry afterwards. *)
Definition createNewHarProxy (portAndProxy : registry)
    : Outcome (Reply * registry) :=
  match Start NewHarProxy with
  | Exited code => Exited code
  | Returned harProxy =>
      let port := Port harProxy in
      Returned ({| status := 200; body := PortBody port |},
                <[port := harProxy]> portAndProxy)
  end.

(** The regular expression [portPathRegex]: a slash, a group of decimal
    digits as long as possible, and an optional group from the next slash
    on. It matches at the leftmost slash; the result is the first group
    there, or [None] when there is no match. *)
Definition portPathRegex (path : string) : option string :=
  match fromSlash path with
  | Some rest => Some (digits rest)
  | None => None
  end.

(** The function [proxyHandler] ends up calling. *)
Inductive Call :=
  | CallErrHandler                    (* errHandler(w, r) *)
  | CallCreateNewHarProxy             (* createNewHarProxy(w) *)
  | CallGetHarLog (port : Z)          (* getHarLog(harProxy, w) *)
  | CallDeleteHarProxy (port : Z)     (* deleteHarProxy(harProxy.Port, w) *)
  | CallAddHostEntries (port : Z)     (* addHostEntries(harProxy, r, w) *)
  | CallNoProxyForPort (port : Z)     (* writeErrorMessage(w, 404, ...) in getProxyForPath *)
  | CallNoSuchPath (path : string)    (* writeErrorMessage(w, 404, ...) in the default case *)
  | CallNothing.                      (* return without writing *)

(** [func getProxyForPath(path string, w http.ResponseWriter)]: the key
    of the proxy found and the rest of the path; [inr] for the two ways
    of returning nil. *)
Definition getProxyForPath (portAndProxy : registry) (path : string)
    : (Z * string) + Call :=
  match portPathRegex path with
  | Some portStr =>
      let port := Atoi portStr in
      match portAndProxy !! port with
      | None => inr (CallNoProxyForPort port)
      | Some _ => inl (port, drop (String.length ("/" ++ portStr)) path)
      end
  | None => inr CallNothing
  end.

(** [func proxyHandler(w http.ResponseWriter, r *http.Request)], up to the
    call it makes. *)
Definition proxyHandler (portAndProxy : registry) (method urlPath : string)
    : Call :=
  if negb (Contains urlPath "/proxy") then CallErrHandler
  else
    let path := drop (String.length "/proxy") urlPath in
    if String.eqb path "" && String.eqb method "POST"
    then CallCreateNewHarProxy
    else
      match getProxyForPath portAndProxy path with
      | inr c => c
      | inl (key, path) =>
          let port :=
            match portAndProxy !! key with
            | Some harProxy => Port harProxy
            | None => key
            end in
          if HasSuffix path "har" && String.eqb method "PUT"
          then CallGetHarLog key
          else if String.eqb path "" && String.eqb method "DELETE"
          then CallDeleteHarProxy port
          else if HasSuffix path "hosts" && String.eqb method "POST"
          then CallAddHostEntries key
          else CallNoSuchPath path
      end.

(** [func getHarLog(harProxy *HarProxy, w http.ResponseWriter)] as the
    steps its goroutine takes on the instance: [polls] evaluations of the
    loop condition of [WaitForEntries], then the logging, the response and
    [ClearEntries]. *)
Definition getHarLog (polls : nat) : list (Instance.label T) :=
  [Instance.CallWaitForEntries] ++ replicate polls Instance.Poll
    ++ [Instance.LogEntries; Instance.EncodeLog; Instance.ClearEntries].

(** How a call that may block or panic comes out. *)
Inductive Result (A : Type) :=
  | Done (a : A)
  | Blocks
  | Panics.
Global Arguments Done {A} a.
Global Arguments Blocks {A}.
Global Arguments Panics {A}.

(** [func (proxy *HarProxy) Stop()] under a schedule [ls] of the steps the
    goroutines of the instance take from the call on, those of [Stop]
    among them: the call is back when they leave its caller at the
    return. Before [Start] the listener is nil and [Add(1)] panics. The
    goroutine of [Start] signals once: of several calls on one proxy one
    gets the signal and the others stay at their receive, so a call made
    when another has begun is one that blocks. *)
Definition Stop (ls : list (Instance.label T)) (proxy : HarProxy)
    : Result HarProxy :=
  match Instance.server (instance proxy), Instance.stopper (instance proxy) with
  | Instance.NotStarted, _ => Panics
  | _, Instance.NotStopping =>
      match Instance.run newEntry ls (instance proxy) with
      | Some st =>
          match Instance.stopper st with
          | Instance.StopReturned =>
              Done {| Port := Port proxy; hostEntries := hostEntries proxy;
                      instance := st |}
          | _ => Blocks
          end
      | None => Blocks
      end
  | _, _ => Blocks
  end.

(** [func deleteHarProxy(port int, w http.ResponseWriter)]. For a port that
    is not in the map [harProxy] is nil and [Stop] reads [proxy.Port]
    through it. *)
Definition deleteHarProxy (port : Z) (ls : list (Instance.label T))
    (portAndProxy : registry) : Result (Reply * registry) :=
  match portAndProxy !! port with
  | None => Panics
  | Some harProxy =>
      match Stop ls harProxy with
      | Done _ =>
          Done ({| status := 200;
                   body := MessageBody
                             ("Deleted proxy for port [" +:+ pretty port
                                +:+ "] succesfully") |},
                delete port portAndProxy)
      | Blocks => Blocks
      | Panics => Panics
      end
  end.
End server.
Global Arguments HarProxy : clear implicits.
End ControlPlane.

(** ** Concrete inputs used in the examples below *)

Module Samples.
Import GoHttp.

Definition ruleAB : HostRewriter.ProxyHosts :=
  {| HostRewriter.Host := "a.test"; HostRewriter.NewHost := "b.test" |}.
Definition ruleAC : HostRewriter.ProxyHosts :=
  {| HostRewriter.Host := "a.test"; HostRewriter.NewHost := "c.test" |}.

Definition get (host : string) : Request :=
  {| Method := "GET"; URLHost := host; URLPath := "/";
     ContentLength := 0; Body := [] |}.

Definition ok200 : Response :=
  {| StatusCode := 200; RespContentLength := 2;
     RespBody := [Byte.x6f; Byte.x6b] |}.

(** An origin server that answers after half a second. *)
Definition slowWire (r : Request) : Capture.RoundTrip :=
  {| Capture.rt_resp := Some ok200; Capture.rt_err := None;
     Capture.rt_latency := 500000000 |}.

(** An origin server that cannot be reached: no response, an error. *)
Definition deadWire (r : Request) : Capture.RoundTrip :=
  {| Capture.rt_resp := None;
     Capture.rt_err := Some "dial tcp: connection refused";
     Capture.rt_latency := 3000000 |}.

(** Readings of the drain loop: one entry in process for the first
    [n] evaluations of the condition, none afterwards. *)
Definition busyFor (n : nat) (poll : nat) : Drain.Obs :=
  {| Drain.chanLen := 0;
     Drain.inProcess := if (poll <? n)%nat then 1 else 0 |}.

Definition world0 : Capture.World :=
  {| Capture.clock := 0; Capture.sent := [] |}.

(** The address [::1] as [net.ParseIP] returns it: sixteen bytes. *)
Definition loopback6 : GoNet.IP := replicate 15 Byte.x00 ++ [Byte.x01].

(** The address 10.0.0.1 in the sixteen-byte form of [net.ParseIP]. *)
Definition ten4 : GoNet.IP :=
  replicate 10 Byte.x00 ++ [Byte.xff; Byte.xff]
    ++ [Byte.x0a; Byte.x00; Byte.x00; Byte.x01].

(** Package [net] on the hosts of the examples: literal addresses parse
    and resolve to themselves; nothing else resolves. *)
Definition literalEnv : GoNet.Env :=
  {| GoNet.SplitHostPort := λ hostport,
       if String.eqb hostport "[::1]:8080" then Some ("::1", "8080")
       else if String.eqb hostport "10.0.0.1:80" then Some ("10.0.0.1", "80")
       else None;
     GoNet.ParseIP := λ host,
       if String.eqb host "::1" then Some loopback6
       else if String.eqb host "10.0.0.1" then Some ten4
       else None;
     GoNet.LookupIP := λ host,
       if String.eqb host "::1" then Some [loopback6]
       else if String.eqb host "10.0.0.1" then Some [ten4]
       else None;
     GoNet.String6 := λ _, "::1" |}.

(** Stand-ins for [parseRequest] and [parseResponse]: the method and the
    status code. *)
Definition parseRequest (r : Request) : string := Method r.
Definition parseResponse (r : option Response) : Z :=
  match r with Some r => StatusCode r | None => 0 end.

Definition blankEntry : Har.HarEntry string Z :=
  {| Har.Request := ""; Har.Response := 0; Har.StartedDateTime := 0;
     Har.Time := 0; Har.ServerIpAddress := "" |}.

(** Instances whose transactions and entries are numbers. *)
Definition entryOf (x : Z) : Z := x.

Definition stateAfter (ls : list (Instance.label Z)) : Instance.state Z Z :=
  default Instance.NewHarProxy (Instance.run entryOf ls Instance.NewHarProxy).

(** One connection is being forwarded when it is time to publish. *)
Definition oneAccepted : list (Instance.label Z) :=
  [Instance.StartServe; Instance.Accept 7].

(** [Stop] from its call to its return, with one connection accepted
    before and still in its round trip. *)
Definition stopSchedule : list (Instance.label Z) :=
  oneAccepted
    ++ [Instance.StopAdd; Instance.StopClose; Instance.ServeReturn;
        Instance.CloseChannel; Instance.ConsumerReceive;
        Instance.SignalDone; Instance.StopDone].

(** Two transactions; the worker of the first reads the counter, the
    consumer counts the second, then the worker writes its stale value
    back; after that [WaitForEntries] is called. *)
Definition raceSchedule : list (Instance.label Z) :=
  [Instance.StartServe; Instance.Accept 1; Instance.Accept 2;
   Instance.Publish 0%nat; Instance.ConsumerLoad; Instance.ConsumerStore;
   Instance.WorkerAppend 0%nat; Instance.WorkerLoad 0%nat;
   Instance.Publish 1%nat; Instance.ConsumerLoad; Instance.ConsumerStore;
   Instance.WorkerStore 0%nat;
   Instance.CallWaitForEntries; Instance.Poll].

(** One transaction; [WaitForEntries] is called after the send, before
    the consumer has counted it. *)
Definition earlySchedule : list (Instance.label Z) :=
  [Instance.StartServe; Instance.Accept 1; Instance.Publish 0%nat;
   Instance.CallWaitForEntries; Instance.Poll].

(** One transaction, forwarded and recorded to the end. *)
Definition oneRecorded : list (Instance.label Z) :=
  [Instance.StartServe; Instance.Accept 1; Instance.Publish 0%nat;
   Instance.ConsumerLoad; Instance.ConsumerStore;
   Instance.WorkerAppend 0%nat; Instance.WorkerLoad 0%nat;
   Instance.WorkerStore 0%nat].

(** An operating system with no port left to bind, and one that binds
    what is asked for, 49152 standing for "any free port". *)
Definition noPort (port : Z) : option Z := None.
Definition anyPort (port : Z) : option Z :=
  Some (if port =? 0 then 49152 else port).

(** A registry with one running instance on port 8080. *)
Definition running8080 : ControlPlane.HarProxy Z Z :=
  {| ControlPlane.Port := 8080;
     ControlPlane.hostEntries := HostRewriter.newHostEntries;
     ControlPlane.instance := stateAfter [Instance.StartServe] |}.
Definition oneProxy : gmap Z (ControlPlane.HarProxy Z Z) :=
  {[ 8080 := running8080 ]}.

(** The steps of a call of [Stop] on an instance that is serving, with
    those of the goroutine of [Start] it waits for. *)
Definition stopServing : list (Instance.label Z) :=
  [Instance.StopAdd; Instance.StopClose; Instance.ServeReturn;
   Instance.CloseChannel; Instance.SignalDone; Instance.StopDone].

(** A second transaction, forwarded and appended to the log. *)
Definition secondAppended : list (Instance.label Z) :=
  [Instance.Accept 2; Instance.Publish 1%nat; Instance.ConsumerLoad;
   Instance.ConsumerStore; Instance.WorkerAppend 1%nat].

(** The race of [raceSchedule] run to the end of both workers, then a call
    of [WaitForEntries]. *)
Definition negativeSchedule : list (Instance.label Z) :=
  [Instance.StartServe; Instance.Accept 1; Instance.Accept 2;
   Instance.Publish 0%nat; Instance.ConsumerLoad; Instance.ConsumerStore;
   Instance.WorkerAppend 0%nat; Instance.WorkerLoad 0%nat;
   Instance.Publish 1%nat; Instance.ConsumerLoad; Instance.ConsumerStore;
   Instance.WorkerStore 0%nat;
   Instance.WorkerAppend 1%nat; Instance.WorkerLoad 1%nat;
   Instance.WorkerStore 1%nat;
   Instance.CallWaitForEntries; Instance.Poll].

(** One transaction is sent; [getHarLog] runs before the consumer has
    counted it; the consumer and the worker then do their work; [getHarLog]
    runs again. Nothing is accepted or sent between the two reads. *)
Definition lateEntrySchedule : list (Instance.label Z) :=
  [Instance.StartServe; Instance.Accept 1; Instance.Publish 0%nat]
    ++ ControlPlane.getHarLog 1
    ++ [Instance.ConsumerLoad; Instance.ConsumerStore;
        Instance.WorkerAppend 0%nat; Instance.WorkerLoad 0%nat;
        Instance.WorkerStore 0%nat]
    ++ ControlPlane.getHarLog 1.

(** The same, with the worker appending between the response and the reset
    of the first read. *)
Definition wipedEntrySchedule : list (Instance.label Z) :=
  [Instance.StartServe; Instance.Accept 1; Instance.Publish 0%nat;
   Instance.CallWaitForEntries; Instance.Poll;
   Instance.ConsumerLoad; Instance.ConsumerStore;
   Instance.LogEntries; Instance.EncodeLog;
   Instance.WorkerAppend 0%nat;
   Instance.ClearEntries;
   Instance.WorkerLoad 0%nat; Instance.WorkerStore 0%nat]
    ++ ControlPlane.getHarLog 1.
End Samples.

(** * Properties *)

(** ** Slices and the host rewriter *)

Section slice_facts.
Import GoSlice.
Context {A : Type}.
Implicit Types (dst src : list A) (s : slice A).

Lemma length_copy_into dst off room src :
  (off + room <= length dst)%nat →
  length (copy_into dst off room src) = length dst.
Proof.
  intros H. unfold copy_into.
  rewrite !length_app, !length_take, length_drop. lia.
Qed.

(** Copying [src] at offset [off] with room for all of it puts it right
    after the first [off] elements. *)
Lemma take_copy_into dst off room src :
  (off + length src <= length dst)%nat →
  (length src <= room)%nat →
  take (off + length src) (copy_into dst off room src) = take off dst ++ src.
Proof.
  intros Hlen Hroom. unfold copy_into.
  rewrite Nat.min_r by lia. rewrite firstn_all.
  rewrite app_assoc. apply take_app_length'.
  rewrite length_app, length_take. lia.
Qed.

Lemma length_elems s : wf s → length (elems s) = len s.
Proof. unfold wf, cap, elems. intros H. rewrite length_take. lia. Qed.
End slice_facts.

Section host_rewriter_facts.
Import GoSlice GoHttp HostRewriter.
Implicit Types (entries : slice ProxyHosts) (more : list ProxyHosts).

(** [AddHostEntries] appends: the rules are kept in insertion order. *)
Lemma elems_AddHostEntries entries more :
  wf entries →
  elems (AddHostEntries entries more) = elems entries ++ more.
Proof.
  intros Hwf. pose proof (length_elems entries Hwf) as Hlen.
  unfold AddHostEntries, elems at 1. cbn [arr len].
  replace (len entries + length more - len entries)%nat
    with (length more) by lia.
  destruct (Nat.ltb_spec (cap entries) (len entries + length more)) as [Hgrow|Hfit].
  - rewrite take_copy_into; [f_equal| |lia].
    + unfold copy_into. rewrite Nat.add_0_l.
      rewrite Nat.min_r by (rewrite Hlen; lia).
      rewrite take_0, firstn_all. cbn [app].
      by apply take_app_length'.
    + rewrite length_copy_into; rewrite length_replicate; lia.
  - rewrite take_copy_into; [done| |lia]. unfold cap in Hfit. lia.
Qed.

Lemma wf_AddHostEntries entries more :
  wf entries → wf (AddHostEntries entries more).
Proof.
  intros Hwf. pose proof (length_elems entries Hwf) as Hlen.
  unfold wf, cap, AddHostEntries. cbn [arr len].
  replace (len entries + length more - len entries)%nat
    with (length more) by lia.
  destruct (Nat.ltb_spec (cap entries) (len entries + length more)) as [Hgrow|Hfit].
  - rewrite !length_copy_into; rewrite ?length_replicate;
      rewrite ?length_copy_into; rewrite ?length_replicate; lia.
  - unfold cap in Hfit. rewrite length_copy_into; lia.
Qed.

Lemma wf_newHostEntries : wf newHostEntries.
Proof. unfold wf, cap, newHostEntries, make. cbn. lia. Qed.

Lemma replaceHost_rules_first pre r post host :
  Forall (λ r', Host r' ≠ host) pre →
  Host r = host →
  replaceHost_rules (pre ++ r :: post) host = NewHost r.
Proof.
  intros Hpre Hr. induction Hpre as [|r' pre Hne _ IH]; cbn.
  - subst host. by rewrite String.eqb_refl.
  - destruct (String.eqb_spec host (Host r')) as [->|_]; [done|apply IH].
Qed.

Lemma replaceHost_rules_none rules host :
  Forall (λ r', Host r' ≠ host) rules →
  replaceHost_rules rules host = host.
Proof.
  induction 1 as [|r' rules Hne _ IH]; cbn; [done|].
  destruct (String.eqb_spec host (Host r')) as [->|_]; [done|apply IH].
Qed.

Lemma replaceHost_rules_app rules more host :
  Exists (λ r, Host r = host) rules →
  replaceHost_rules (rules ++ more) host = replaceHost_rules rules host.
Proof.
  induction rules as [|r rules IH]; intros Hex; [by apply Exists_nil in Hex|].
  cbn. destruct (String.eqb_spec host (Host r)) as [|Hne]; [done|].
  apply IH. apply Exists_cons in Hex as [Heq|Hex]; [congruence|done].
Qed.

End host_rewriter_facts.


(** ** The capture hooks *)

Section capture_facts.
Import GoHttp Capture.

Lemma copyReq_same r : copyReq r = (r, r).
Proof. by destruct r. Qed.

Lemma copyResp_same r : copyResp r = (r, r).
Proof. by destruct r. Qed.

(** What one forwarded request leaves behind. When it does not panic, one
    value is published; its [start] is the clock at the request hook, its
    [end_] the clock when the round-trip closure is entered, and the
    round trip itself only shows in the clock afterwards. It panics
    exactly when content is captured and the round trip gave no
    response, and then nothing is published. *)
Lemma forward_spec captureContent wire hostEntries engine r w :
  let r' := HostRewriter.replaceHost r hostEntries in
  match forward captureContent wire hostEntries engine r w with
  | (Ok (out, err), w') =>
      (captureContent = false ∨ is_Some (rt_resp (wire r')))
      ∧ out = rt_resp (wire r') ∧ err = rt_err (wire r')
      ∧ clock w' = clock w + engine + rt_latency (wire r')
      ∧ sent w' = sent w ++ [{| req := r'; start := clock w;
                                resp := rt_resp (wire r');
                                end_ := clock w + engine |}]
  | (Panic _, w') =>
      captureContent = true ∧ rt_resp (wire r') = None
      ∧ sent w' = sent w
  end.
Proof.
  intros r'. subst r'.
  unfold forward, OnRequestFunc, RoundTripperFunc, DetailedRoundTrip,
    HostRewriter.handleRequest, HostRewriter.replaceHost.
  rewrite copyReq_same.
  replace (if captureContent && (0 <? ContentLength r) then (r, r) else (r, r))
    with (r, r) by (by destruct (_ && _)).
  cbv beta iota zeta.
  set (h := HostRewriter.replaceHost_rules _ _). clearbody h.
  replace (setHost r (URLHost (setHost r h))) with (setHost r h) by done.
  destruct w as [c s].
  unfold mbind, mret, M_bind, M_ret, bind, ret, Now, elapse, publish. cbn.
  destruct (wire (setHost r h)) as [[[code len content]|] e lat];
    destruct captureContent; cbn;
    try destruct (0 <? len); cbn;
    repeat split; eauto.
Qed.
End capture_facts.

Section timing_facts.
Import GoHttp Capture.

(** The elapsed time of an entry is computed from the two clock readings
    alone. *)
Lemma Time_newEntry {HarRequest HarResponse : Type}
    (parseRequest : Request → HarRequest)
    (parseResponse : option Response → HarResponse) env x :
  Har.Time (newEntry parseRequest parseResponse env x)
  = GoInt.div (GoTime.Sub (end_ x) (start x)) 1000000.
Proof.
  unfold newEntry, Har.fillIpAddress, GoTime.Nanoseconds.
  repeat case_match; done.
Qed.

(** For every request that is forwarded and published, the recorded
    interval is the engine's own work between the two hooks; the time the
    round trip takes is no part of it. *)
Lemma forward_recorded_interval captureContent wire hostEntries engine r w out w' :
  forward captureContent wire hostEntries engine r w = (Ok out, w') →
  ∃ x, sent w' = sent w ++ [x]
       ∧ start x = clock w
       ∧ end_ x = clock w + engine
       ∧ clock w' = end_ x
                    + rt_latency (wire (HostRewriter.replaceHost r hostEntries)).
Proof.
  intros Hrun.
  pose proof (forward_spec captureContent wire hostEntries engine r w) as Hspec.
  cbv zeta in Hspec. rewrite Hrun in Hspec. destruct out as [o e].
  destruct Hspec as (_ & _ & _ & Hclock & Hsent).
  eexists. split; [exact Hsent|]. cbn. repeat split; lia.
Qed.

(** C3 (code bug). One GET through the hooks, with the clock at 0 when the
    request hook runs, one millisecond of engine work before the round
    trip and an origin server that answers after 500 ms: the response is
    there at 501 ms, but the published value has [end_] at 1 ms, read when
    the round-trip closure is entered, and the entry built from it has
    [Time] 1. The round trip is not covered. *)
Theorem forward_Time_excludes_round_trip :
  let out := forward false Samples.slowWire HostRewriter.newHostEntries
               1000000 (Samples.get "example.com") Samples.world0 in
  clock (snd out) = 501000000
  ∧ map (λ x, (start x, end_ x)) (sent (snd out)) = [(0, 1000000)]
  ∧ map (λ x, Har.Time (newEntry Samples.parseRequest Samples.parseResponse
                          Samples.literalEnv x))
        (sent (snd out)) = [1].
Proof. vm_compute. done. Qed.

(** C4 (code bug). With content capture on and an origin server that
    cannot be reached, the round trip yields a nil response; the closure
    reads [resp.ContentLength] through it and panics, and nothing has been
    sent on the channel. *)
Theorem RoundTripperFunc_panics_without_response :
  let out := forward true Samples.deadWire HostRewriter.newHostEntries
               1000000 (Samples.get "example.com") Samples.world0 in
  fst out = Panic "invalid memory address or nil pointer dereference"
  ∧ sent (snd out) = [].
Proof. vm_compute. done. Qed.

(** The same failed round trip with content capture off: the short-circuit
    keeps the response from being read, and the value is published with a
    nil response. *)
Lemma RoundTripperFunc_publishes_when_not_capturing :
  let out := forward false Samples.deadWire HostRewriter.newHostEntries
               1000000 (Samples.get "example.com") Samples.world0 in
  fst out = Ok (None, Some "dial tcp: connection refused")
  ∧ map resp (sent (snd out)) = [None].
Proof. vm_compute. done. Qed.
End timing_facts.

(** ** [fillIpAddress] *)

Section ip_facts.
Import GoHttp GoNet Har.
Context {HarRequest HarResponse : Type}.
Implicit Types (harEntry : HarEntry HarRequest HarResponse).

(** The field after [fillIpAddress], case by case. The lookup is made for
    every host, literal or not, and an IPv4 result overrides what the
    literal branch wrote; what the literal branch writes is the raw bytes
    of the parsed address. *)
Lemma ServerIpAddress_fillIpAddress env (req : GoHttp.Request) harEntry :
  let host :=
    match SplitHostPort env (URLHost req) with
    | Some (host, _) => host
    | None => URLHost req
    end in
  ServerIpAddress (fillIpAddress env req harEntry)
  = match LookupIP env host ≫= firstTo4 with
    | Some ip => IP_String env ip
    | None =>
        match ParseIP env host with
        | Some ip => string_of_IP ip
        | None => ServerIpAddress harEntry
        end
    end.
Proof.
  unfold fillIpAddress.
  destruct (SplitHostPort env (URLHost req)) as [[host port]|]; cbv zeta;
    (destruct (LookupIP env _) as [ipaddr|]; cbn;
     [destruct (firstTo4 ipaddr); cbn|]);
    repeat case_match; done.
Qed.
End ip_facts.

(** C8 (code bug). A request to the literal address [::1], port 8080: the
    host parses as an address, the field is set to the conversion
    [string(ip)], which is the sixteen raw bytes of the address and not its
    text, and the lookup that follows finds no IPv4 address to replace
    it. *)
Theorem fillIpAddress_literal_is_raw_bytes :
  let harEntry := Har.fillIpAddress Samples.literalEnv
                    (Samples.get "[::1]:8080") Samples.blankEntry in
  Har.ServerIpAddress harEntry = GoNet.string_of_IP Samples.loopback6
  ∧ String.length (Har.ServerIpAddress harEntry) = 16%nat
  ∧ Har.ServerIpAddress harEntry ≠ "::1".
Proof. vm_compute. repeat split; discriminate. Qed.

(** For the literal address 10.0.0.1 the field ends up as the text of the
    address, written by the lookup branch. *)
Lemma fillIpAddress_literal_v4 :
  Har.ServerIpAddress
    (Har.fillIpAddress Samples.literalEnv (Samples.get "10.0.0.1:80")
       Samples.blankEntry) = "10.0.0.1".
Proof. vm_compute. done. Qed.

(** ** The drain loop *)

Section drain_facts.
Import Drain.
Implicit Types (obs : nat → Obs) (fuel poll k : nat) (secs : Z).

Lemma wrap64_small z :
  GoInt.minInt64 <= z <= GoInt.maxInt64 → GoInt.wrap64 z = z.
Proof.
  unfold GoInt.minInt64, GoInt.maxInt64, GoInt.wrap64. intros H.
  rewrite Z.mod_small; lia.
Qed.

Lemma busy_false o :
  busy o = false ↔ chanLen o = 0%nat ∧ inProcess o <= 0.
Proof.
  unfold busy. rewrite orb_false_iff, Nat.ltb_ge, Z.ltb_ge. lia.
Qed.

Lemma flat_map_map {A B C} (f : B → list C) (g : A → B) (l : list A) :
  flat_map f (map g l) = flat_map (λ x, f (g x)) l.
Proof. induction l as [|x l IH]; cbn; [done|by rewrite IH]. Qed.

Lemma turn_small secs :
  0 <= secs < GoInt.maxInt64 → turn secs = (secs + 1, turnEvents (secs + 1)).
Proof.
  intros H. unfold turn, turnEvents. rewrite wrap64_small; [done|].
  unfold GoInt.minInt64, GoInt.maxInt64 in *. lia.
Qed.

(** While every reading is busy the loop goes on, whatever [secs] is. *)
Lemma WaitForEntries_from_busy fuel obs poll secs :
  (∀ j, (j < fuel)%nat → busy (obs (poll + j)%nat) = true) →
  WaitForEntries_from fuel obs poll secs = None.
Proof.
  revert poll secs. induction fuel as [|fuel IH]; intros poll secs Hbusy; [done|].
  cbn [WaitForEntries_from].
  pose proof (Hbusy 0%nat ltac:(lia)) as H0. rewrite Nat.add_0_r in H0.
  rewrite H0. destruct (turn secs) as [secs' evs].
  rewrite IH; [done|]. intros j Hj.
  replace (S poll + j)%nat with (poll + S j)%nat by lia. apply Hbusy. lia.
Qed.

(** When the loop returns, it has just read an idle state, and every
    reading before was busy. *)
Lemma WaitForEntries_from_Some fuel obs poll secs tr :
  WaitForEntries_from fuel obs poll secs = Some tr →
  ∃ k, (k < fuel)%nat ∧ busy (obs (poll + k)%nat) = false
       ∧ ∀ j, (j < k)%nat → busy (obs (poll + j)%nat) = true.
Proof.
  revert poll secs tr. induction fuel as [|fuel IH]; intros poll secs tr; [done|].
  cbn [WaitForEntries_from].
  destruct (busy (obs poll)) eqn:Hpoll.
  - destruct (turn secs) as [secs' evs].
    destruct (WaitForEntries_from fuel obs (S poll) secs') as [rest|] eqn:Hrest;
      [|done].
    intros _. destruct (IH _ _ _ Hrest) as (k & Hk & Hidle & Hbefore).
    exists (S k). replace (poll + S k)%nat with (S poll + k)%nat by lia.
    split; [lia|]. split; [done|]. intros [|j] Hj.
    + by rewrite Nat.add_0_r.
    + replace (poll + S j)%nat with (S poll + j)%nat by lia. apply Hbefore. lia.
  - intros _. exists 0%nat. rewrite Nat.add_0_r. split; [lia|]. split; [done|].
    lia.
Qed.

(** With the first idle reading at the [k]-th evaluation, the loop makes
    exactly [k] turns and returns. *)
Lemma WaitForEntries_from_idle k fuel obs poll secs :
  busy (obs (poll + k)%nat) = false →
  (∀ j, (j < k)%nat → busy (obs (poll + j)%nat) = true) →
  (k < fuel)%nat →
  0 <= secs → secs + Z.of_nat k <= GoInt.maxInt64 →
  WaitForEntries_from fuel obs poll secs
  = Some (flat_map (λ i : nat, turnEvents (secs + Z.of_nat i)) (seq 1 k)).
Proof.
  revert fuel poll secs.
  induction k as [|k IH]; intros fuel poll secs Hidle Hbefore Hfuel Hsecs Hmax.
  - destruct fuel as [|fuel]; [lia|]. cbn [WaitForEntries_from].
    rewrite Nat.add_0_r in Hidle. by rewrite Hidle.
  - destruct fuel as [|fuel]; [lia|]. cbn [WaitForEntries_from].
    pose proof (Hbefore 0%nat ltac:(lia)) as H0. rewrite Nat.add_0_r in H0.
    rewrite H0, turn_small by lia.
    rewrite (IH fuel (S poll) (secs + 1)); try lia.
    + cbn [seq flat_map]. rewrite <- (seq_shift k 1), flat_map_map.
      replace (secs + Z.of_nat 1) with (secs + 1) by lia.
      do 2 f_equal. apply flat_map_ext. intros i. f_equal. lia.
    + by replace (S poll + k)%nat with (poll + S k)%nat by lia.
    + intros j Hj. replace (S poll + j)%nat with (poll + S j)%nat by lia.
      apply Hbefore. lia.
Qed.

(** The loop by itself. [WaitForEntries] returns only after reading an
    empty channel and a counter that is not positive, all readings before
    having been busy. As long as the readings are busy it stays in its
    loop, beyond any number of turns. Each turn logs, sleeps one second
    and, once more than ten turns have been made, logs the warning and
    goes on. Its only result is that it returns: there is no error. *)
Lemma WaitForEntries_keeps_waiting obs :
  (∀ fuel tr,
      WaitForEntries fuel obs = Some tr →
      ∃ k, (k < fuel)%nat
           ∧ chanLen (obs k) = 0%nat ∧ inProcess (obs k) <= 0
           ∧ ∀ j, (j < k)%nat → busy (obs j) = true)
  ∧ (∀ fuel,
       (∀ j, (j < fuel)%nat → busy (obs j) = true) →
       WaitForEntries fuel obs = None)
  ∧ (∀ k fuel,
       busy (obs k) = false →
       (∀ j, (j < k)%nat → busy (obs j) = true) →
       (k < fuel)%nat →
       Z.of_nat k <= GoInt.maxInt64 →
       WaitForEntries fuel obs
       = Some (flat_map
                 (λ i : nat,
                    [LogWaiting; Sleep 1]
                      ++ (if 10 <? Z.of_nat i
                          then [LogGivingUp (Z.of_nat i)] else []))
                 (seq 1 k))).
Proof.
  split; [|split].
  - intros fuel tr Hret.
    destruct (WaitForEntries_from_Some _ _ _ _ _ Hret) as (k & Hk & Hidle & Hbefore).
    cbn in Hidle. exists k. apply busy_false in Hidle as [Hlen Hin].
    repeat split; done.
  - intros fuel Hbusy. by apply WaitForEntries_from_busy.
  - intros k fuel Hidle Hbefore Hfuel Hmax. unfold WaitForEntries.
    rewrite (WaitForEntries_from_idle k); try done.
Qed.

Lemma WaitForEntries_keeps_waiting_witness :
  WaitForEntries 12 (Samples.busyFor 12) = None
  ∧ WaitForEntries 20 (Samples.busyFor 12)
    = Some (concat (replicate 10 [LogWaiting; Sleep 1])
            ++ [LogWaiting; Sleep 1; LogGivingUp 11;
                LogWaiting; Sleep 1; LogGivingUp 12]).
Proof.
  assert (Hbusy : ∀ j, (j < 12)%nat → busy (Samples.busyFor 12 j) = true).
  { intros j Hj. unfold busy, Samples.busyFor. simpl.
    apply Nat.ltb_lt in Hj. rewrite Hj. reflexivity. }
  destruct (WaitForEntries_keeps_waiting (Samples.busyFor 12))
    as (_ & Hloop & Hreturn).
  split.
  - apply Hloop, Hbusy.
  - apply (Hreturn 12%nat 20%nat); [reflexivity|exact Hbusy|lia|].
    unfold GoInt.maxInt64. lia.
Defined.
End drain_facts.

(** ** The goroutines of one instance *)

Section instance_facts.
Import Instance.
Context {T E : Type} (newEntry : T → E).
Implicit Types (s : state T E) (l : label T) (ls : list (label T)).

Lemma run_app ls1 ls2 s :
  run newEntry (ls1 ++ ls2) s = run newEntry ls1 s ≫= run newEntry ls2.
Proof.
  revert s. induction ls1 as [|l ls1 IH]; intros s; cbn; [done|].
  destruct (step newEntry l s); [apply IH|done].
Qed.

(** Induction over the reachable states: a property of the new instance
    that every step preserves holds in every reachable state. *)
Lemma reachable_ind (P : state T E → Prop) :
  P NewHarProxy →
  (∀ s l s', reachable newEntry s → P s → step newEntry l s = Some s' → P s') →
  ∀ s, reachable newEntry s → P s.
Proof.
  intros Hinit Hstep s [ls Hrun]. revert s Hrun.
  induction ls as [|l ls IH] using rev_ind; intros s Hrun.
  - cbn in Hrun. by simplify_eq.
  - rewrite run_app in Hrun.
    destruct (run newEntry ls NewHarProxy) as [s0|] eqn:Hs0; [|done].
    cbn in Hrun. destruct (step newEntry l s0) as [s1|] eqn:Hs1; [|done].
    simplify_eq. apply (Hstep s0 l); [by exists ls|by apply IH|done].
Qed.

Ltac step_cases H :=
  unfold step, send in H; repeat case_match; simplify_eq; cbn in *.

(** The capture channel never holds a value: it is made without a buffer
    and no step changes that. *)
Lemma unbuffered s :
  reachable newEntry s →
  ccap (entryChannel s) = 0%nat ∧ cbuf (entryChannel s) = [].
Proof.
  revert s. apply reachable_ind; [done|].
  intros s l s' _ [Hcap Hbuf] Hstep.
  step_cases Hstep; try done;
    repeat match goal with
           | H : ccap _ = _ |- _ => rewrite H in *
           | H : cbuf _ = _ |- _ => rewrite H in *
           end; try done;
    repeat match goal with
           | H : (_ <? _)%nat = true |- _ => apply Nat.ltb_lt in H
           end; cbn in *; lia.
Qed.

(** The channel is closed exactly from the close in the goroutine of
    [Start] on, and a caller of [Stop] gets past its receive only with
    the last statement of that goroutine. *)
Lemma shutdown_order s :
  reachable newEntry s →
  (cclosed (entryChannel s) = true
   ↔ server s = ChannelClosed ∨ server s = ServerExited)
  ∧ (stopper s = GotDone ∨ stopper s = StopReturned → server s = ServerExited).
Proof.
  revert s. apply reachable_ind.
  - cbn. split; [split; [done|by intros [|]]|by intros [|]].
  - intros s l s' _ [Hclosed Hstop] Hstep.
    step_cases Hstep;
      try (split; [split; [intros ?|intros [|]]|intros [|]]; try done;
           try (apply Hclosed; done); try (apply Hstop; auto; done);
           try (by eauto);
           repeat match goal with
                  | H : server _ = _ |- _ => rewrite H in *
                  | H : stopper _ = _ |- _ => rewrite H in *
                  end;
           intuition congruence).
Qed.


(** The order of the shutdown as far as the code keeps it: the goroutine
    of [Start] closes the capture channel only after [http.Serve] has
    returned, and [Stop] returns only after that goroutine has closed the
    channel and signalled. *)
Theorem Stop_returns_after_close s :
  reachable newEntry s →
  (cclosed (entryChannel s) = true → serve_returned s = true)
  ∧ (stopper s = StopReturned →
     serve_returned s = true ∧ cclosed (entryChannel s) = true
     ∧ server s = ServerExited).
Proof.
  intros Hreach. destruct (shutdown_order s Hreach) as [Hclosed Hstop].
  unfold serve_returned. split.
  - intros Hc. apply Hclosed in Hc as [-> | ->]; done.
  - intros Hret. rewrite (Hstop (or_intror Hret)).
    split; [done|]. split; [|done]. apply Hclosed. right. auto.
Qed.
End instance_facts.


Lemma Stop_returns_after_close_witness :
  let s := Samples.stateAfter Samples.stopSchedule in
  Instance.reachable Samples.entryOf s
  ∧ Instance.stopper s = Instance.StopReturned
  ∧ Instance.cclosed (Instance.entryChannel s) = true
  ∧ Instance.serve_returned s = true.
Proof.
  intros s.
  assert (Hreach : Instance.reachable Samples.entryOf s)
    by (exists Samples.stopSchedule; vm_compute; reflexivity).
  destruct (Stop_returns_after_close Samples.entryOf s Hreach) as [_ Hstop].
  assert (Hret : Instance.stopper s = Instance.StopReturned)
    by (vm_compute; reflexivity).
  destruct (Hstop Hret) as (Hserve & Hclosed & _).
  split; [exact Hreach|]. split; [exact Hret|]. split; assumption.
Defined.

(** C1 (code bug). One connection is accepted and is still in its round
    trip when [Stop] is called. [Stop] runs to its return: the channel is
    closed and the consumer has seen it closed and left its loop, while
    the handler has yet to publish; when it does, the send is on a closed
    channel and the transaction is lost. Nothing waits for the handlers
    [http.Serve] has started. *)
Theorem Stop_closes_before_pending_publish :
  let s := Samples.stateAfter Samples.stopSchedule in
  Instance.run Samples.entryOf Samples.stopSchedule Instance.NewHarProxy = Some s
  ∧ Instance.stopper s = Instance.StopReturned
  ∧ Instance.cclosed (Instance.entryChannel s) = true
  ∧ Instance.consumer s = Instance.ConsumerExited
  ∧ Instance.handlers s = [Instance.Forwarding 7]
  ∧ Instance.publish_pending s = true
  ∧ Instance.handlers <$> Instance.step Samples.entryOf (Instance.Publish 0%nat) s
  = Some [Instance.SendPanicked].
Proof. vm_compute. done. Qed.

(** C2 (code bug). Two transactions are forwarded. The worker of the first
    has read the counter at 1 when the consumer counts the second and
    writes 2; the worker then writes 0. [WaitForEntries], called now,
    returns at once: both transactions are published, the log holds one
    entry, and the worker of the second has not appended yet. *)
Theorem WaitForEntries_returns_with_entry_missing :
  let s := Samples.stateAfter Samples.raceSchedule in
  Instance.run Samples.entryOf Samples.raceSchedule Instance.NewHarProxy = Some s
  ∧ Instance.reader s = Instance.Drained
  ∧ Instance.published s = 2%nat
  ∧ Instance.entriesInProcess s = 0
  ∧ Instance.HarLog s = [1]
  ∧ Instance.workers s = [Instance.WorkerExited; Instance.Building 2].
Proof. vm_compute. done. Qed.

(** The same with atomic updates of the counter: a call of
    [WaitForEntries] between the send of a transaction and the consumer's
    increment returns with an empty log. *)
Lemma WaitForEntries_returns_before_increment :
  let s := Samples.stateAfter Samples.earlySchedule in
  Instance.run Samples.entryOf Samples.earlySchedule Instance.NewHarProxy = Some s
  ∧ Instance.reader s = Instance.Drained
  ∧ Instance.published s = 1%nat
  ∧ Instance.consumer s = Instance.Received 1
  ∧ Instance.HarLog s = [].
Proof. vm_compute. done. Qed.

(** After the race the counter ends below zero once the second worker is
    done. *)
Lemma counter_negative_after_race :
  Instance.entriesInProcess
  (Samples.stateAfter
     (Samples.raceSchedule
        ++ [Instance.WorkerAppend 1%nat; Instance.WorkerLoad 1%nat;
            Instance.WorkerStore 1%nat])) = -1.
Proof. vm_compute. done. Qed.

(** C7 (code bug). [WaitForEntries] leaves its loop on a counter that is
    not zero and while work is in flight. After the lost update of
    [raceSchedule] it returns with the counter at 0 and the worker of the
    second transaction still before [addEntry]; when both workers have run
    to their end the counter is -1, and [WaitForEntries] returns on that
    reading at its first evaluation of the condition. *)
Theorem WaitForEntries_returns_on_wrong_counter :
  let s := Samples.stateAfter Samples.raceSchedule in
  let s' := Samples.stateAfter Samples.negativeSchedule in
  Instance.run Samples.entryOf Samples.raceSchedule Instance.NewHarProxy = Some s
  ∧ Instance.reader s = Instance.Drained
  ∧ Instance.workers s = [Instance.WorkerExited; Instance.Building 2]
  ∧ Instance.run Samples.entryOf Samples.negativeSchedule Instance.NewHarProxy
    = Some s'
  ∧ Instance.reader s' = Instance.Drained
  ∧ Instance.entriesInProcess s' = -1
  ∧ Drain.WaitForEntries 1
      (λ _, {| Drain.chanLen := Instance.chan_len (Instance.entryChannel s');
               Drain.inProcess := Instance.entriesInProcess s' |})
    = Some [].
Proof. vm_compute. done. Qed.

(** ** The control plane *)

Section control_plane_facts.
Import ControlPlane.
Context {T E : Type} (newEntry : T → E).
Implicit Types (portAndProxy : gmap Z (HarProxy T E)).

(** When the listener is bound, [createNewHarProxy] registers the running
    instance under the bound port and answers with that port; the other
    entries of the registry stay as they are. *)
Lemma createNewHarProxy_bound Listen portAndProxy port :
  Listen 0 = Some port →
  ∃ harProxy,
    createNewHarProxy newEntry Listen portAndProxy
    = Returned ({| status := 200; body := PortBody port |},
                <[port := harProxy]> portAndProxy)
    ∧ Port harProxy = port
    ∧ Instance.server (instance harProxy) = Instance.Serving.
Proof.
  intros Hbind. unfold createNewHarProxy, Start. cbn. rewrite Hbind.
  eexists. split; [reflexivity|]. done.
Qed.

(** C5 (as amended). When the port cannot be bound, [Start] ends in
    [log.Fatal]: [createNewHarProxy] does not return, no reply is written
    and the process exits with status 1, whatever the registry holds. *)
Theorem createNewHarProxy_bind_failure_exits Listen portAndProxy :
  Listen 0 = None →
  createNewHarProxy newEntry Listen portAndProxy = Exited 1.
Proof.
  intros Hbind. unfold createNewHarProxy, Start. cbn. by rewrite Hbind.
Qed.
End control_plane_facts.

Lemma createNewHarProxy_bind_failure_exits_witness :
  Samples.noPort 0 = None
  ∧ ControlPlane.createNewHarProxy Samples.entryOf Samples.noPort Samples.oneProxy
    = ControlPlane.Exited 1.
Proof.
  split; [reflexivity|].
  apply (createNewHarProxy_bind_failure_exits Samples.entryOf Samples.noPort
           Samples.oneProxy).
  reflexivity.
Defined.

(** C5 (counterexample). With no port left to bind and one instance
    running, a create request gets no reply at all, error or other, and
    leaves no registry behind: the call ends the process. *)
Lemma createNewHarProxy_bind_failure_no_reply :
  ¬ ∃ reply,
      ControlPlane.createNewHarProxy Samples.entryOf Samples.noPort Samples.oneProxy
      = ControlPlane.Returned (reply, Samples.oneProxy).
Proof. intros [reply Hreply]. vm_compute in Hreply. discriminate. Qed.

(** ** Reading the log: [getHarLog] *)

Section strings_facts.
Import GoStrings.

Lemma digits_app_slash ds rest :
  forallb isDigit (list_ascii_of_string ds) = true →
  digits (ds +:+ String "/" rest) = ds.
Proof.
  induction ds as [|c ds IH]; [done|].
  cbn [list_ascii_of_string forallb]. intros [Hc Hds]%andb_prop.
  change (String c ds +:+ String "/" rest)
    with (String c (ds +:+ String "/" rest)).
  cbn [digits]. rewrite Hc. f_equal. by apply IH.
Qed.

Lemma drop_length_app a b : drop (String.length a) (a +:+ b) = b.
Proof. induction a as [|c a IH]; cbn; done. Qed.
End strings_facts.

Section getHarLog_facts.
Import Instance ControlPlane GoStrings.
Context {T E : Type} (newEntry : T → E).
Implicit Types (s : state T E) (portAndProxy : gmap Z (HarProxy T E)).

(** A request with method PUT and path /proxy/<port>/har for a registered
    port is answered by [getHarLog] on the instance of that port. *)
Lemma proxyHandler_PUT_har portAndProxy portStr harProxy :
  forallb isDigit (list_ascii_of_string portStr) = true →
  portAndProxy !! Atoi portStr = Some harProxy →
  proxyHandler portAndProxy "PUT" ("/proxy/" +:+ portStr +:+ "/har")
  = CallGetHarLog (Atoi portStr).
Proof.
  intros Hdigits Hreg. unfold proxyHandler.
  change ("/proxy/" +:+ portStr +:+ "/har")
    with ("/proxy" +:+ String "/" (portStr +:+ String "/" "har")).
  replace (Contains _ "/proxy") with true by reflexivity.
  rewrite drop_length_app.
  cbn [negb String.eqb andb].
  unfold getProxyForPath, portPathRegex. cbn [fromSlash].
  rewrite Ascii.eqb_refl, digits_app_slash, Hreg by done.
  change (String "/" (portStr +:+ String "/" "har"))
    with (("/" +:+ portStr) +:+ "/har").
  rewrite drop_length_app. reflexivity.
Qed.

(** Evaluations of the loop condition leave the log and the replies as
    they are, and the loop is left only on an idle reading. *)
Lemma run_Poll polls s s' :
  run newEntry (replicate polls Poll) s = Some s' →
  HarLog s' = HarLog s ∧ responses s' = responses s
  ∧ (∀ secs, reader s = Waiting secs → reader s' = Drained → busy s = false).
Proof.
  revert s. induction polls as [|polls IH]; intros s; cbn.
  - intros ?; simplify_eq. repeat split. congruence.
  - destruct (reader s) as [|secs| | |] eqn:Hreader; try done.
    destruct (busy s) eqn:Hbusy; intros Hrun;
      apply IH in Hrun as (Hlog & Hresp & Hdrained); cbn in *.
    + repeat split; try done. intros secs' _ Hd.
      pose proof (Hdrained _ eq_refl Hd) as Hidle.
      change (busy s = false) in Hidle. congruence.
    + done.
Qed.

(** One call of [getHarLog] while no other goroutine moves: it is past
    its wait only on an idle reading, answers with the log as it is and
    leaves the log empty. *)
Lemma run_getHarLog polls s s' :
  run newEntry (getHarLog polls) s = Some s' →
  busy s = false
  ∧ responses s' = responses s ++ [HarLog s]
  ∧ HarLog s' = []
  ∧ reader s' = Idle.
Proof.
  unfold getHarLog. rewrite run_app. cbn [run mbind option_bind].
  destruct (step newEntry CallWaitForEntries s) as [s1|] eqn:Hcall; [|done].
  cbn [mbind option_bind]. rewrite run_app.
  destruct (run newEntry (replicate polls Poll) s1) as [s2|] eqn:Hpolls; [|done].
  cbn. destruct (reader s2) eqn:Hreader; try done. cbn.
  intros ?; simplify_eq. cbn.
  apply run_Poll in Hpolls as (Hlog & Hresp & Hidle).
  unfold step in Hcall. destruct (reader s) eqn:Hr; simplify_eq.
  cbn in *. specialize (Hidle _ eq_refl Hreader).
  rewrite Hresp, Hlog. done.
Qed.

(** Reading the log while the instance is at rest. A PUT on
    /proxy/<port>/har for a registered port runs [getHarLog] on that
    instance. [getHarLog] gets past [WaitForEntries] only on an idle
    reading, writes the log as it then is, and [ClearEntries] leaves the
    log empty. So of two calls in a row during which no other goroutine
    moves, the second answers with no entries. *)
Lemma getHarLog_reads_then_resets portAndProxy portStr harProxy :
  forallb isDigit (list_ascii_of_string portStr) = true →
  portAndProxy !! Atoi portStr = Some harProxy →
  proxyHandler portAndProxy "PUT" ("/proxy/" +:+ portStr +:+ "/har")
  = CallGetHarLog (Atoi portStr)
  ∧ (∀ s s', step newEntry Poll s = Some s' → reader s' = Drained →
             busy s = false)
  ∧ (∀ s s', step newEntry EncodeLog s = Some s' →
             responses s' = responses s ++ [HarLog s])
  ∧ (∀ s s', step newEntry ClearEntries s = Some s' → HarLog s' = [])
  ∧ (∀ polls1 polls2 s s',
       run newEntry (getHarLog polls1 ++ getHarLog polls2) s = Some s' →
       busy s = false
       ∧ responses s' = responses s ++ [HarLog s; []]
       ∧ HarLog s' = [])
  ∧ (∀ polls s0 s1 s2,
       step newEntry ClearEntries s0 = Some s1 →
       run newEntry (getHarLog polls) s1 = Some s2 →
       responses s2 = responses s1 ++ [[]]).
Proof.
  intros Hdigits Hreg. split; [by eapply proxyHandler_PUT_har|].
  split; [|split; [|split; [|split]]].
  - intros s s' Hstep Hd. cbn in Hstep.
    destruct (reader s); try done. destruct (busy s); [|done].
    by simplify_eq.
  - intros s s' Hstep. cbn in Hstep. destruct (reader s); by simplify_eq.
  - intros s s' Hstep. cbn in Hstep. destruct (reader s); by simplify_eq.
  - intros polls1 polls2 s s' Hrun. rewrite run_app in Hrun.
    destruct (run newEntry (getHarLog polls1) s) as [s1|] eqn:Hfirst; [|done].
    cbn in Hrun.
    apply run_getHarLog in Hfirst as (Hidle & Hresp1 & Hlog1 & _).
    apply run_getHarLog in Hrun as (_ & Hresp2 & Hlog2 & _).
    rewrite Hresp2, Hresp1, Hlog1, <- app_assoc. done.
  - intros polls s0 s1 s2 Hclear Hrun.
    apply run_getHarLog in Hrun as (_ & Hresp & _).
    cbn in Hclear. destruct (reader s0); simplify_eq. done.
Qed.
End getHarLog_facts.

Lemma getHarLog_reads_then_resets_witness :
  ControlPlane.proxyHandler Samples.oneProxy "PUT" "/proxy/8080/har"
  = ControlPlane.CallGetHarLog 8080
  ∧ ∃ s',
      Instance.run Samples.entryOf
        (ControlPlane.getHarLog 1 ++ ControlPlane.getHarLog 1)
        (Samples.stateAfter Samples.oneRecorded) = Some s'
      ∧ Instance.responses s' = [[1]; []].
Proof.
  assert (Hdigits : forallb GoStrings.isDigit (list_ascii_of_string "8080") = true)
    by (vm_compute; reflexivity).
  assert (Hreg : Samples.oneProxy !! GoStrings.Atoi "8080" = Some Samples.running8080)
    by (vm_compute; reflexivity).
  destruct (getHarLog_reads_then_resets Samples.entryOf Samples.oneProxy "8080"
              Samples.running8080 Hdigits Hreg)
    as (Hroute & _ & _ & _ & Htwice & _).
  split; [exact Hroute|].
  destruct (Instance.run Samples.entryOf
              (ControlPlane.getHarLog 1 ++ ControlPlane.getHarLog 1)
              (Samples.stateAfter Samples.oneRecorded)) as [s'|] eqn:Hrun;
    [|vm_compute in Hrun; discriminate].
  exists s'. split; [reflexivity|].
  destruct (Htwice 1%nat 1%nat _ s' Hrun) as (_ & Hresp & _).
  rewrite Hresp. vm_compute. reflexivity.
Defined.

(** * Further properties *)

(** ** Growing and using the rule list *)

Section host_rewriter_more.
Import GoSlice GoHttp HostRewriter.
Implicit Types (entries : slice ProxyHosts) (more : list ProxyHosts).

Lemma run_AddHostEntries entries (calls : list (list ProxyHosts)) :
  wf entries →
  wf (foldl AddHostEntries entries calls)
  ∧ elems (foldl AddHostEntries entries calls) = elems entries ++ concat calls.
Proof.
  revert entries. induction calls as [|more calls IH]; intros entries Hwf; cbn.
  - by rewrite app_nil_r.
  - destruct (IH (AddHostEntries entries more)) as [Hwf' Hel];
      [by apply wf_AddHostEntries|].
    split; [done|]. by rewrite Hel, elems_AddHostEntries, <- app_assoc.
Qed.

(** X1. Whatever calls of [AddHostEntries] a new proxy has seen, its rules
    are the rules of all the calls, in the order of the calls and, within
    a call, in the order given. *)
Theorem AddHostEntries_calls_concat (calls : list (list ProxyHosts)) :
  elems (foldl AddHostEntries newHostEntries calls) = concat calls
  ∧ wf (foldl AddHostEntries newHostEntries calls).
Proof.
  destruct (run_AddHostEntries newHostEntries calls wf_newHostEntries)
    as [Hwf Hel].
  split; [|done]. rewrite Hel. done.
Qed.

(** X2. [AddHostEntries] reallocates only when the rules no longer fit:
    with room left the capacity stays, otherwise the new capacity is twice
    the new length plus one. The length grows by the number of rules
    added. *)
Theorem AddHostEntries_capacity entries more :
  wf entries →
  let n := (len entries + length more)%nat in
  len (AddHostEntries entries more) = n
  ∧ cap (AddHostEntries entries more)
    = (if (cap entries <? n)%nat then (n + 1) * 2 else cap entries)%nat.
Proof.
  intros Hwf n. pose proof (length_elems entries Hwf) as Hlen.
  split; [done|]. unfold AddHostEntries. fold n.
  replace (n - len entries)%nat with (length more) by (unfold n; lia).
  destruct (Nat.ltb_spec (cap entries) n) as [Hgrow|Hfit];
    unfold cap in *; cbn [arr len].
  - rewrite !length_copy_into; rewrite ?length_replicate;
      rewrite ?length_copy_into; rewrite ?length_replicate; unfold n; lia.
  - rewrite length_copy_into; [done|]. unfold n in Hfit. lia.
Qed.

End host_rewriter_more.

Lemma AddHostEntries_capacity_witness :
  GoSlice.wf HostRewriter.newHostEntries
  ∧ GoSlice.cap (HostRewriter.AddHostEntries HostRewriter.newHostEntries
                   (replicate 101 Samples.ruleAB)) = 204%nat
  ∧ GoSlice.cap (HostRewriter.AddHostEntries HostRewriter.newHostEntries
                   [Samples.ruleAB]) = 100%nat.
Proof.
  assert (Hwf : GoSlice.wf HostRewriter.newHostEntries) by (vm_compute; lia).
  split; [exact Hwf|]. split.
  - destruct (AddHostEntries_capacity HostRewriter.newHostEntries
                (replicate 101 Samples.ruleAB) Hwf) as [_ Hcap].
    rewrite Hcap. vm_compute. reflexivity.
  - destruct (AddHostEntries_capacity HostRewriter.newHostEntries
                [Samples.ruleAB] Hwf) as [_ Hcap].
    rewrite Hcap. vm_compute. reflexivity.
Defined.


(** ** What the capture hooks hand on and record *)

Section capture_more.
Import GoHttp Capture.


(** X6. The elapsed time of an entry is in whole milliseconds, rounded
    down: for an end that is not before the start, [Time] milliseconds fit
    in the interval and [Time + 1] do not. *)
Theorem Time_whole_milliseconds {HarRequest HarResponse : Type}
    (parseRequest : Request → HarRequest)
    (parseResponse : option Response → HarResponse) env x :
  start x <= end_ x →
  end_ x - start x <= GoInt.maxInt64 →
  let t := Har.Time (newEntry parseRequest parseResponse env x) in
  0 <= t ∧ t * 1000000 <= end_ x - start x < (t + 1) * 1000000.
Proof.
  intros Hle Hmax t. subst t. rewrite Time_newEntry.
  unfold GoTime.Sub, GoInt.div, GoInt.minInt64, GoInt.maxInt64 in *.
  rewrite Z.min_r by lia. rewrite Z.max_r by lia.
  rewrite Z.quot_div_nonneg by lia.
  pose proof (Z.div_mod (end_ x - start x) 1000000 ltac:(lia)) as Hdm.
  pose proof (Z.mod_pos_bound (end_ x - start x) 1000000 ltac:(lia)) as Hmod.
  split; [apply Z.div_pos; lia|]. lia.
Qed.
End capture_more.


Lemma Time_whole_milliseconds_witness :
  let x := {| Capture.req := Samples.get "example.com"; Capture.start := 5;
              Capture.resp := None; Capture.end_ := 2500004 |} in
  Har.Time (Capture.newEntry Samples.parseRequest Samples.parseResponse
              Samples.literalEnv x) = 2.
Proof.
  intros x.
  destruct (Time_whole_milliseconds Samples.parseRequest Samples.parseResponse
              Samples.literalEnv x) as [Hpos Hbounds].
  - vm_compute. discriminate.
  - vm_compute. discriminate.
  - cbv zeta in Hbounds. change (Capture.end_ x - Capture.start x) with 2499999 in Hbounds.
    lia.
Defined.

(** ** The server address of an entry *)

Section ip_more.
Import GoHttp GoNet Har.
Context {HarRequest HarResponse : Type}.
Implicit Types (harEntry : HarEntry HarRequest HarResponse).

Lemma firstTo4_skips v6 ip rest p4 :
  Forall (λ a, To4 a = None) v6 →
  To4 ip = Some p4 →
  firstTo4 (v6 ++ ip :: rest) = Some ip.
Proof.
  intros Hv6 Hip. induction Hv6 as [|a v6 Ha _ IH]; cbn.
  - by rewrite Hip.
  - by rewrite Ha.
Qed.

(** X7. [fillIpAddress] touches the server address only. When the host
    resolves, the address written is the first IPv4 address in the order of
    the resolver's answer, in dotted decimal, addresses that are not IPv4
    being skipped. When the host neither parses as an address nor
    resolves, the entry is left as it is. *)
Theorem fillIpAddress_first_IPv4 env (req : GoHttp.Request) harEntry :
  let host :=
    match SplitHostPort env (URLHost req) with
    | Some (host, _) => host
    | None => URLHost req
    end in
  (Request (fillIpAddress env req harEntry) = Request harEntry
   ∧ Response (fillIpAddress env req harEntry) = Response harEntry
   ∧ StartedDateTime (fillIpAddress env req harEntry) = StartedDateTime harEntry
   ∧ Time (fillIpAddress env req harEntry) = Time harEntry)
  ∧ (∀ v6 ip rest p4,
       LookupIP env host = Some (v6 ++ ip :: rest) →
       Forall (λ a, To4 a = None) v6 →
       To4 ip = Some p4 →
       ServerIpAddress (fillIpAddress env req harEntry) = dotted p4)
  ∧ (ParseIP env host = None → LookupIP env host = None →
     fillIpAddress env req harEntry = harEntry).
Proof.
  intros host. split; [|split].
  - unfold fillIpAddress. fold host. repeat case_match; done.
  - intros v6 ip rest p4 Hlook Hv6 Hip.
    pose proof (ServerIpAddress_fillIpAddress env req harEntry) as Hfield.
    cbv zeta in Hfield. fold host in Hfield.
    rewrite Hfield, Hlook. cbn. rewrite (firstTo4_skips v6 ip rest p4) by done.
    unfold IP_String. by rewrite Hip.
  - intros Hparse Hlook. unfold fillIpAddress. fold host.
    by rewrite Hparse, Hlook.
Qed.
End ip_more.

Lemma fillIpAddress_first_IPv4_witness :
  let env := {| GoNet.SplitHostPort := λ _, None;
                GoNet.ParseIP := λ _, None;
                GoNet.LookupIP := λ _, Some [Samples.loopback6; Samples.ten4];
                GoNet.String6 := λ _, "" |} in
  Har.ServerIpAddress
    (Har.fillIpAddress env (Samples.get "dual.test") Samples.blankEntry)
  = "10.0.0.1".
Proof.
  intros env.
  destruct (fillIpAddress_first_IPv4 env (Samples.get "dual.test")
              Samples.blankEntry) as (_ & Hfirst & _).
  rewrite (Hfirst [Samples.loopback6] Samples.ten4 []
             [Byte.x0a; Byte.x00; Byte.x00; Byte.x01]).
  - vm_compute. reflexivity.
  - reflexivity.
  - constructor; [vm_compute; reflexivity|constructor].
  - vm_compute. reflexivity.
Defined.

(** ** Routing and the registry *)

Section routing_more.
Import Instance ControlPlane GoStrings.
Context {T E : Type} (newEntry : T → E).
Implicit Types (portAndProxy : gmap Z (HarProxy T E)).

Lemma digits_app ds rest :
  forallb isDigit (list_ascii_of_string ds) = true →
  digits (ds +:+ rest) = ds +:+ digits rest.
Proof.
  induction ds as [|c ds IH]; [done|].
  cbn [list_ascii_of_string forallb]. intros [Hc Hds]%andb_prop.
  change (String c ds +:+ rest) with (String c (ds +:+ rest)).
  cbn [digits]. rewrite Hc.
  change (String c ds +:+ digits rest) with (String c (ds +:+ digits rest)).
  f_equal. by apply IH.
Qed.

Lemma string_app_empty_r (a : string) : a +:+ "" = a.
Proof.
  induction a as [|c a IH]; [done|].
  change (String c a +:+ "") with (String c (a +:+ "")). by rewrite IH.
Qed.

(** What [getProxyForPath] finds in a path that starts with a slash and
    digits. *)
Lemma getProxyForPath_port portAndProxy portStr rest :
  forallb isDigit (list_ascii_of_string portStr) = true →
  digits rest = "" →
  getProxyForPath portAndProxy (String "/" (portStr +:+ rest))
  = match portAndProxy !! Atoi portStr with
    | Some _ => inl (Atoi portStr, rest)
    | None => inr (CallNoProxyForPort (Atoi portStr))
    end.
Proof.
  intros Hdigits Hrest. unfold getProxyForPath, portPathRegex. cbn [fromSlash].
  rewrite Ascii.eqb_refl, digits_app, Hrest, string_app_empty_r by done.
  destruct (portAndProxy !! Atoi portStr); [|done].
  change (String "/" (portStr +:+ rest)) with (("/" +:+ portStr) +:+ rest).
  by rewrite drop_length_app.
Qed.

Lemma proxyHandler_port portAndProxy method portStr rest :
  proxyHandler portAndProxy method ("/proxy/" +:+ portStr +:+ rest)
  = match getProxyForPath portAndProxy (String "/" (portStr +:+ rest)) with
    | inr c => c
    | inl (key, path) =>
        let port :=
          match portAndProxy !! key with
          | Some harProxy => Port harProxy
          | None => key
          end in
        if HasSuffix path "har" && String.eqb method "PUT"
        then CallGetHarLog key
        else if String.eqb path "" && String.eqb method "DELETE"
        then CallDeleteHarProxy port
        else if HasSuffix path "hosts" && String.eqb method "POST"
        then CallAddHostEntries key
        else CallNoSuchPath path
    end.
Proof.
  unfold proxyHandler.
  change ("/proxy/" +:+ portStr +:+ rest)
    with ("/proxy" +:+ String "/" (portStr +:+ rest)).
  replace (Contains _ "/proxy") with true by reflexivity.
  rewrite drop_length_app. cbn [negb String.eqb andb]. done.
Qed.

(** X8. How a request for a registered port is dispatched, by what
    follows the port in the path and by the method: a path that ends in
    "har" with PUT reads the log, nothing after the port with DELETE
    deletes the proxy, a path that ends in "hosts" with POST adds host
    rules, and everything else is answered as an unknown path. The rest
    of the path is compared by its ending only. *)
Theorem proxyHandler_dispatch portAndProxy method portStr rest harProxy :
  forallb isDigit (list_ascii_of_string portStr) = true →
  digits rest = "" →
  portAndProxy !! Atoi portStr = Some harProxy →
  proxyHandler portAndProxy method ("/proxy/" +:+ portStr +:+ rest)
  = if HasSuffix rest "har" && String.eqb method "PUT"
    then CallGetHarLog (Atoi portStr)
    else if String.eqb rest "" && String.eqb method "DELETE"
    then CallDeleteHarProxy (Port harProxy)
    else if HasSuffix rest "hosts" && String.eqb method "POST"
    then CallAddHostEntries (Atoi portStr)
    else CallNoSuchPath rest.
Proof.
  intros Hdigits Hrest Hreg.
  rewrite proxyHandler_port, getProxyForPath_port by done.
  rewrite Hreg. cbv zeta. by rewrite Hreg.
Qed.

(** X9. A request that names a port with no proxy is answered with "no
    proxy for port", whatever its method and whatever follows the port. The
    port is the number the digits after /proxy/ stand for, 0 when there
    are none. *)
Theorem proxyHandler_unknown_port portAndProxy method portStr rest :
  forallb isDigit (list_ascii_of_string portStr) = true →
  digits rest = "" →
  portAndProxy !! Atoi portStr = None →
  proxyHandler portAndProxy method ("/proxy/" +:+ portStr +:+ rest)
  = CallNoProxyForPort (Atoi portStr).
Proof.
  intros Hdigits Hrest Hreg.
  rewrite proxyHandler_port, getProxyForPath_port by done.
  by rewrite Hreg.
Qed.

(** X10. On the path /proxy itself only POST does something: it creates a
    proxy. With any other method the handler returns without writing a
    reply. *)
Theorem proxyHandler_bare portAndProxy method :
  proxyHandler portAndProxy method "/proxy"
  = if String.eqb method "POST" then CallCreateNewHarProxy else CallNothing.
Proof.
  unfold proxyHandler.
  replace (Contains "/proxy" "/proxy") with true by reflexivity.
  cbn [negb String.length drop String.eqb andb].
  by destruct (String.eqb method "POST").
Qed.

(** X11. When the listener is bound, [createNewHarProxy] answers with the
    bound port and registers the proxy, which is serving, under that port;
    the other entries of the registry stay as they are, every key still is
    the port of its proxy, and a PUT for the log of the new port reaches
    the new proxy. *)
Theorem createNewHarProxy_registers Listen portAndProxy port :
  Listen 0 = Some port →
  ∃ harProxy registry',
    createNewHarProxy newEntry Listen portAndProxy
    = Returned ({| status := 200; body := PortBody port |}, registry')
    ∧ registry' !! port = Some harProxy
    ∧ Port harProxy = port
    ∧ server (instance harProxy) = Serving
    ∧ (∀ k, k ≠ port → registry' !! k = portAndProxy !! k)
    ∧ ((∀ k p, portAndProxy !! k = Some p → Port p = k) →
       ∀ k p, registry' !! k = Some p → Port p = k)
    ∧ (∀ portStr,
         forallb isDigit (list_ascii_of_string portStr) = true →
         Atoi portStr = port →
         proxyHandler registry' "PUT" ("/proxy/" +:+ portStr +:+ "/har")
         = CallGetHarLog port).
Proof.
  intros Hbind.
  destruct (createNewHarProxy_bound newEntry Listen portAndProxy port Hbind)
    as (harProxy & Hcreate & Hport & Hserving).
  exists harProxy, (<[port := harProxy]> portAndProxy).
  split; [done|]. split; [by rewrite lookup_insert_eq|].
  split; [done|]. split; [done|]. split; [|split].
  - intros k Hk. by rewrite lookup_insert_ne.
  - intros Hkeys k p. destruct (decide (port = k)) as [<-|Hne].
    + rewrite lookup_insert_eq. by intros [= <-].
    + rewrite lookup_insert_ne by done. apply Hkeys.
  - intros portStr Hdigits Hatoi. rewrite <- Hatoi.
    eapply proxyHandler_PUT_har; [done|].
    rewrite Hatoi. apply lookup_insert_eq.
Qed.


End routing_more.

Lemma proxyHandler_dispatch_witness :
  ControlPlane.proxyHandler Samples.oneProxy "POST" "/proxy/8080/hosts"
  = ControlPlane.CallAddHostEntries 8080
  ∧ ControlPlane.proxyHandler Samples.oneProxy "DELETE" "/proxy/8080"
    = ControlPlane.CallDeleteHarProxy 8080
  ∧ ControlPlane.proxyHandler Samples.oneProxy "PUT" "/proxy/8080/otherhar"
    = ControlPlane.CallGetHarLog 8080
  ∧ ControlPlane.proxyHandler Samples.oneProxy "GET" "/proxy/8080/har"
    = ControlPlane.CallNoSuchPath "/har".
Proof.
  assert (Hdigits : forallb GoStrings.isDigit (list_ascii_of_string "8080") = true)
    by (vm_compute; reflexivity).
  assert (Hreg : Samples.oneProxy !! GoStrings.Atoi "8080" = Some Samples.running8080)
    by (vm_compute; reflexivity).
  split; [|split; [|split]].
  - apply (proxyHandler_dispatch Samples.oneProxy "POST" "8080" "/hosts"
             Samples.running8080 Hdigits eq_refl Hreg).
  - apply (proxyHandler_dispatch Samples.oneProxy "DELETE" "8080" ""
             Samples.running8080 Hdigits eq_refl Hreg).
  - apply (proxyHandler_dispatch Samples.oneProxy "PUT" "8080" "/otherhar"
             Samples.running8080 Hdigits eq_refl Hreg).
  - apply (proxyHandler_dispatch Samples.oneProxy "GET" "8080" "/har"
             Samples.running8080 Hdigits eq_refl Hreg).
Defined.

Lemma proxyHandler_unknown_port_witness :
  ControlPlane.proxyHandler Samples.oneProxy "PUT" "/proxy/9999/har"
  = ControlPlane.CallNoProxyForPort 9999
  ∧ ControlPlane.proxyHandler Samples.oneProxy "POST" "/proxy/"
    = ControlPlane.CallNoProxyForPort 0.
Proof.
  split.
  - apply (proxyHandler_unknown_port Samples.oneProxy "PUT" "9999" "/har");
      vm_compute; reflexivity.
  - apply (proxyHandler_unknown_port Samples.oneProxy "POST" "" "");
      vm_compute; reflexivity.
Defined.

Lemma createNewHarProxy_registers_witness :
  Samples.anyPort 0 = Some 49152
  ∧ ∃ harProxy registry',
      ControlPlane.createNewHarProxy Samples.entryOf Samples.anyPort Samples.oneProxy
      = ControlPlane.Returned
          ({| ControlPlane.status := 200;
              ControlPlane.body := ControlPlane.PortBody 49152 |}, registry')
      ∧ registry' !! 49152 = Some harProxy
      ∧ registry' !! 8080 = Some Samples.running8080.
Proof.
  assert (Hbind : Samples.anyPort 0 = Some 49152) by reflexivity.
  split; [exact Hbind|].
  destruct (createNewHarProxy_registers Samples.entryOf Samples.anyPort
              Samples.oneProxy 49152 Hbind)
    as (harProxy & registry' & Hcreate & Hnew & _ & _ & Hothers & _).
  exists harProxy, registry'. split; [exact Hcreate|]. split; [exact Hnew|].
  rewrite Hothers by discriminate. vm_compute. reflexivity.
Defined.


(** ** What the goroutines of an instance keep *)

Section instance_more.
Import Instance.
Context {T E : Type} (newEntry : T → E).
Implicit Types (s : state T E) (l : label T) (ls : list (label T)).

Ltac step_inv H :=
  unfold step, send in H; repeat case_match; simplify_eq; cbn in *.

(** Replacing one element of a list changes the number of elements that
    satisfy a test by the difference the two elements make. *)
Lemma length_filter_insert {A} (f : A → bool) (l : list A) i x y :
  l !! i = Some x →
  (length (List.filter f (<[i := y]> l)) + Nat.b2n (f x)
   = length (List.filter f l) + Nat.b2n (f y))%nat.
Proof.
  revert i. induction l as [|a l IH]; intros [|i] Hi; cbn in *; simplify_eq.
  - destruct (f x), (f y); cbn; lia.
  - specialize (IH i Hi). destruct (f a); cbn; [by f_equal|done].
Qed.

Ltac count_insert :=
  repeat match goal with
         | H : ?l !! ?i = Some ?x
           |- context [List.filter ?f (<[?i := ?y]> ?l)] =>
             let Hc := fresh "Hc" in
             pose proof (length_filter_insert f l i x y H) as Hc;
             cbn in Hc;
             generalize dependent (List.filter f (<[i := y]> l)); intros
         end.

(** A property that the steps of some labels preserve holds after every
    schedule made of such labels. *)
Lemma run_invariant (Q : label T → Prop) (P : state T E → Prop) :
  (∀ s l s', Q l → P s → step newEntry l s = Some s' → P s') →
  ∀ ls s s', Forall Q ls → P s → run newEntry ls s = Some s' → P s'.
Proof.
  intros Hstep ls. induction ls as [|l ls IH]; intros s s' HQ HP Hrun; cbn in Hrun.
  - by simplify_eq.
  - apply Forall_cons in HQ as [Hl Hls].
    destruct (step newEntry l s) as [s1|] eqn:Hs1; [|done].
    eapply IH; [done| |done]. by eapply Hstep.
Qed.

Lemma reachable_step s l s' :
  reachable newEntry s → step newEntry l s = Some s' → reachable newEntry s'.
Proof.
  intros [ls Hrun] Hstep. exists (ls ++ [l]).
  rewrite run_app, Hrun. cbn. by rewrite Hstep.
Qed.

(** The transactions sent on the channel are those the consumer holds and
    those that have a worker. *)
Lemma published_has_one_worker_aux s :
  reachable newEntry s →
  published s = (length (workers s) + holding s)%nat.
Proof.
  revert s. apply reachable_ind; [done|].
  intros s l s' Hreach Hinv Hstep.
  destruct (unbuffered newEntry s Hreach) as [Hcap Hbuf].
  unfold published, holding in *.
  step_inv Hstep; try congruence;
    rewrite ?length_insert, ?length_app, ?List.filter_app, ?length_app in *;
    cbn in *; try lia;
    try (rewrite Hcap in *; cbn in *; congruence);
    try (rewrite Hbuf in *; congruence);
    count_insert; lia.
Qed.

(** X13. No transaction is lost or doubled between the channel and the
    workers: in every reachable state each transaction sent on the channel
    is either with the consumer, which has not yet started its worker, or
    has exactly one worker. *)
Theorem published_has_one_worker s :
  reachable newEntry s →
  published s = (length (workers s) + holding s)%nat.
Proof. apply published_has_one_worker_aux. Qed.

(** X15. The log is append-only between resets: over any schedule without
    [ClearEntries] the entries the log had are still there, at the same
    places, with the new ones after them. *)
Theorem HarLog_append_only ls s s' :
  Forall (λ l, l ≠ ClearEntries) ls →
  run newEntry ls s = Some s' →
  HarLog s `prefix_of` HarLog s'.
Proof.
  intros Hls Hrun.
  refine (run_invariant (λ l, l ≠ ClearEntries)
            (λ s1, HarLog s `prefix_of` HarLog s1) _ ls s s' Hls _ Hrun);
    [|done].
  clear. intros s1 l s2 Hl Hinv Hstep.
  step_inv Hstep; try done. unfold addEntry. by apply prefix_app_r.
Qed.

Lemma closed_step s l s' :
  cclosed (entryChannel s) = true →
  step newEntry l s = Some s' →
  cclosed (entryChannel s') = true ∧ published s' = published s.
Proof.
  intros Hclosed Hstep. unfold published.
  step_inv Hstep; try congruence; try done;
    rewrite ?List.filter_app, ?length_app in *; cbn in *;
    try (split; [done|lia]);
    (split; [done|]); count_insert; lia.
Qed.

(** X16. Once the capture channel is closed it stays closed and nothing
    more is published: over every schedule from then on the number of
    transactions sent stays the same, and a handler that sends then
    panics. *)
Theorem nothing_published_after_close s :
  cclosed (entryChannel s) = true →
  (∀ ls s', run newEntry ls s = Some s' →
            cclosed (entryChannel s') = true ∧ published s' = published s)
  ∧ (∀ i x, handlers s !! i = Some (Forwarding x) →
            ∃ s', step newEntry (Publish i) s = Some s'
                  ∧ handlers s' !! i = Some SendPanicked).
Proof.
  intros Hclosed. split.
  - intros ls s' Hrun.
    refine (run_invariant (λ _, True)
              (λ s1, cclosed (entryChannel s1) = true
                     ∧ published s1 = published s)
              _ ls s s' _ (conj Hclosed eq_refl) Hrun).
    + intros s1 l s2 _ [Hc Hp] Hstep.
      destruct (closed_step s1 l s2 Hc Hstep) as [Hc2 Hp2].
      split; [done|congruence].
    + by apply Forall_true.
  - intros i x Hi. cbn. rewrite Hi. unfold send. rewrite Hclosed.
    eexists. split; [done|]. cbn.
    apply list_lookup_insert_eq. by eapply lookup_lt_Some.
Qed.

(** X17. [Stop] closes the listener for good: in every reachable state in
    which [Stop] is past its [Close], the listener is not listening and
    [http.Serve] accepts no connection. *)
Theorem no_accept_after_Stop s :
  reachable newEntry s →
  stop_closed s = true →
  listening s = false ∧ ∀ x, step newEntry (Accept x) s = None.
Proof.
  intros Hreach.
  assert (Hinv : (listening s = true → stop_closed s = false)
                 ∧ (server s = NotStarted → stopper s = NotStopping)).
  { revert s Hreach. apply reachable_ind; [done|].
    intros s l s' _ [Hlisten Hstart] Hstep. unfold stop_closed in *.
    step_inv Hstep; try congruence; try done; intuition congruence. }
  destruct Hinv as [Hlisten _]. intros Hstop.
  assert (Hl : listening s = false).
  { destruct (listening s); [|done]. specialize (Hlisten eq_refl). congruence. }
  split; [done|]. intros x. cbn. rewrite Hl. by destruct (server s).
Qed.

End instance_more.

(** ** Which entries the log holds *)

Section instance_content.
Import Instance.
Context {T E : Type} (newEntry : T → E).
Implicit Types (s : state T E) (l : label T) (ls : list (label T)).

Lemma pick_app {A} (f : A → bool) (gs gs' : list A) (xs xs' : list T) :
  length gs = length xs →
  pick f (gs ++ gs') (xs ++ xs') = pick f gs xs ++ pick f gs' xs'.
Proof.
  revert xs. induction gs as [|g gs IH]; intros [|x xs] Hlen; cbn in *;
    try done.
  rewrite IH by lia. by destruct (f g).
Qed.

Lemma pick_insert_same {A} (f : A → bool) (gs : list A) (xs : list T) i g g' :
  gs !! i = Some g → f g' = f g →
  pick f (<[i := g']> gs) xs = pick f gs xs.
Proof.
  revert xs i. induction gs as [|a gs IH]; intros [|x xs] [|i] Hi Hf;
    cbn in *; simplify_eq; try done.
  - by rewrite Hf.
  - by erewrite IH.
Qed.

Lemma pick_insert_on {A} (f : A → bool) (gs : list A) (xs : list T) i g g' x :
  gs !! i = Some g → f g = false → f g' = true → xs !! i = Some x →
  pick f (<[i := g']> gs) xs ≡ₚ x :: pick f gs xs.
Proof.
  revert xs i. induction gs as [|a gs IH]; intros [|y xs] [|i] Hi Hf Hf' Hx;
    cbn in *; simplify_eq.
  - by rewrite Hf, Hf'.
  - specialize (IH xs i Hi Hf Hf' Hx). destruct (f a).
    + etrans; [apply Permutation_skip, IH|apply Permutation_swap].
    + done.
Qed.

Lemma pick_all {A} (f : A → bool) (gs : list A) (xs : list T) :
  forallb f gs = true → length gs = length xs → pick f gs xs = xs.
Proof.
  revert xs. induction gs as [|g gs IH]; intros [|x xs] Hall Hlen;
    cbn in *; try done.
  apply andb_prop in Hall as [Hg Hgs]. rewrite Hg. f_equal. apply IH; [done|lia].
Qed.

Lemma pick_submseteq {A} (f : A → bool) (gs : list A) (xs : list T) :
  pick f gs xs ⊆+ xs.
Proof.
  revert xs. induction gs as [|g gs IH]; intros [|x xs]; cbn; try done.
  - apply submseteq_nil_l.
  - destruct (f g).
    + by apply submseteq_skip.
    + by apply submseteq_cons.
Qed.

Lemma length_pick {A} (f : A → bool) (gs : list A) (xs : list T) :
  length gs = length xs →
  length (pick f gs xs) = length (List.filter f gs).
Proof.
  revert xs. induction gs as [|g gs IH]; intros [|x xs] Hlen; cbn in *;
    try done.
  destruct (f g); cbn; rewrite IH; lia.
Qed.

Lemma accepted_snoc ls l :
  accepted (ls ++ [l])
  = accepted ls ++ match l with Accept x => [x] | _ => [] end.
Proof. unfold accepted. rewrite omap_app. by destruct l. Qed.

Ltac frame wtx H :=
  exists wtx; unfold tracks, published_txs, held in *;
  rewrite accepted_snoc; cbn; rewrite ?app_nil_r; exact H.

Lemma lookup_insert_other {A} (gs : list A) i j (g' a : A) :
  <[i := g']> gs !! j = Some a → a ≠ g' → gs !! j = Some a.
Proof.
  intros Hj Hne. apply list_lookup_insert_Some in Hj as [(_ & ? & _)|[_ ?]];
    [congruence|done].
Qed.

Lemma tracks_step ls s wtx l s' :
  l ≠ ClearEntries →
  ccap (entryChannel s) = 0%nat → cbuf (entryChannel s) = [] →
  tracks newEntry ls s wtx →
  step newEntry l s = Some s' →
  ∃ wtx', tracks newEntry (ls ++ [l]) s' wtx'.
Proof.
  intros Hl Hcap Hbuf Htr Hstep.
  destruct l; cbn in Hstep; try done.
  - (* StartServe *) destruct (server s); simplify_eq. frame wtx Htr.
  - (* Accept *) destruct (server s); simplify_eq.
    destruct (listening s); simplify_eq.
    destruct Htr as (Hlen & Hfw & Hwl & Hbw & Hpub & Hlog).
    exists wtx. unfold tracks, published_txs, held in *.
    rewrite accepted_snoc. cbn. split_and!; try done.
    + rewrite !length_app. cbn. lia.
    + intros i y Hi. apply lookup_app_Some in Hi as [Hi|[Hge Hi]].
      * rewrite lookup_app_l; [by apply Hfw|].
        rewrite <- Hlen. by eapply lookup_lt_Some.
      * rewrite Hlen in *. rewrite lookup_app_r by done.
        destruct (i - length (accepted ls))%nat; cbn in *; by simplify_eq.
    + rewrite pick_app by done. cbn. by rewrite app_nil_r.
  - (* Publish *)
    destruct (handlers s !! i) as [[x| |]|] eqn:Hi; try done.
    destruct Htr as (Hlen & Hfw & Hwl & Hbw & Hpub & Hlog).
    unfold send in Hstep. rewrite Hbuf, Hcap in Hstep.
    destruct (cclosed (entryChannel s)); simplify_eq.
    + exists wtx. unfold tracks, published_txs, held in *.
      rewrite accepted_snoc. cbn. rewrite app_nil_r. split_and!; try done.
      * by rewrite length_insert.
      * intros j y Hj. apply Hfw. by eapply lookup_insert_other.
      * by erewrite pick_insert_same.
    + destruct (consumer s) eqn:Hcons; simplify_eq.
      exists wtx. unfold tracks, published_txs, held in *.
      rewrite accepted_snoc. cbn. rewrite app_nil_r, Hcons in *.
      split_and!; try done.
      * by rewrite length_insert.
      * intros j y Hj. apply Hfw. by eapply lookup_insert_other.
      * rewrite (pick_insert_on has_sent _ _ i (Forwarding x) Published x);
          try done; [|by apply Hfw].
        rewrite Hpub, app_nil_r. apply Permutation_cons_append.
  - (* ConsumerReceive *)
    destruct (consumer s) eqn:Hcons; simplify_eq. rewrite Hbuf in Hstep.
    destruct (cclosed (entryChannel s)); simplify_eq.
    exists wtx. unfold tracks, published_txs, held in *.
    rewrite accepted_snoc. cbn. rewrite app_nil_r, Hcons in *. exact Htr.
  - (* ConsumerLoad *)
    destruct (consumer s) eqn:Hcons; simplify_eq.
    exists wtx. unfold tracks, published_txs, held in *.
    rewrite accepted_snoc. cbn. rewrite app_nil_r, Hcons in *. exact Htr.
  - (* ConsumerStore *)
    destruct (consumer s) eqn:Hcons; simplify_eq.
    destruct Htr as (Hlen & Hfw & Hwl & Hbw & Hpub & Hlog).
    exists (wtx ++ [x]). unfold tracks, published_txs, held in *.
    rewrite accepted_snoc. cbn. rewrite !app_nil_r, Hcons in *.
    split_and!; try done.
    + rewrite !length_app. cbn. lia.
    + intros j y Hj. apply lookup_app_Some in Hj as [Hj|[Hge Hj]].
      * rewrite lookup_app_l; [by apply Hbw|].
        rewrite <- Hwl. by eapply lookup_lt_Some.
      * rewrite Hwl in *. rewrite lookup_app_r by done.
        destruct (j - length wtx)%nat; cbn in *; by simplify_eq.
    + rewrite pick_app by done. cbn. by rewrite app_nil_r.
  - (* WorkerAppend *)
    destruct (workers s !! j) as [[x| | |]|] eqn:Hj; simplify_eq.
    destruct Htr as (Hlen & Hfw & Hwl & Hbw & Hpub & Hlog).
    exists wtx. unfold tracks, published_txs, held, addEntry in *.
    rewrite accepted_snoc. cbn. rewrite app_nil_r. split_and!; try done.
    + by rewrite length_insert.
    + intros k y Hk. apply Hbw. by eapply lookup_insert_other.
    + rewrite (pick_insert_on has_appended _ _ j (Building x) Appended x);
        try done; [|by apply Hbw].
      cbn. rewrite <- Hlog. symmetry. apply Permutation_cons_append.
  - (* WorkerLoad *)
    destruct (workers s !! j) as [[x| | |]|] eqn:Hj; simplify_eq.
    destruct Htr as (Hlen & Hfw & Hwl & Hbw & Hpub & Hlog).
    exists wtx. unfold tracks, published_txs, held in *.
    rewrite accepted_snoc. cbn. rewrite app_nil_r. split_and!; try done.
    + by rewrite length_insert.
    + intros k y Hk. apply Hbw. by eapply lookup_insert_other.
    + by erewrite pick_insert_same.
  - (* WorkerStore *)
    destruct (workers s !! j) as [[x| | |]|] eqn:Hj; simplify_eq.
    destruct Htr as (Hlen & Hfw & Hwl & Hbw & Hpub & Hlog).
    exists wtx. unfold tracks, published_txs, held in *.
    rewrite accepted_snoc. cbn. rewrite app_nil_r. split_and!; try done.
    + by rewrite length_insert.
    + intros k y Hk. apply Hbw. by eapply lookup_insert_other.
    + by erewrite pick_insert_same.
  - destruct (server s); simplify_eq. frame wtx Htr.
  - destruct (server s); simplify_eq. frame wtx Htr.
  - destruct (server s), (stopper s); simplify_eq; frame wtx Htr.
  - destruct (stopper s), (server s); simplify_eq; frame wtx Htr.
  - destruct (stopper s); simplify_eq; frame wtx Htr.
  - destruct (stopper s); simplify_eq; frame wtx Htr.
  - destruct (reader s); simplify_eq; frame wtx Htr.
  - destruct (reader s); simplify_eq. destruct (busy s); simplify_eq; frame wtx Htr.
  - destruct (reader s); simplify_eq; frame wtx Htr.
  - destruct (reader s); simplify_eq; frame wtx Htr.
Qed.

Lemma tracks_run ls s :
  Forall (λ l, l ≠ ClearEntries) ls →
  run newEntry ls NewHarProxy = Some s →
  ∃ wtx, tracks newEntry ls s wtx.
Proof.
  revert s. induction ls as [|l ls IH] using rev_ind; intros s Hls Hrun.
  - cbn in Hrun. simplify_eq. exists []. by repeat split.
  - apply Forall_app in Hls as [Hls Hl]. rewrite Forall_singleton in Hl.
    rewrite run_app in Hrun.
    destruct (run newEntry ls NewHarProxy) as [s0|] eqn:Hs0; [|done].
    cbn in Hrun. destruct (step newEntry l s0) as [s1|] eqn:Hs1; [|done].
    simplify_eq. destruct (IH s0 Hls eq_refl) as [wtx Htr].
    destruct (unbuffered newEntry s0 (ex_intro _ ls Hs0)) as [Hcap Hbuf].
    by eapply tracks_step.
Qed.

Lemma submseteq_map {A B} (f : A → B) (l k : list A) :
  l ⊆+ k → map f l ⊆+ map f k.
Proof.
  induction 1 as [|x l k _ IH|x y l|x l k _ IH|l k m _ IH1 _ IH2]; cbn.
  - done.
  - by apply submseteq_skip.
  - apply submseteq_swap.
  - by apply submseteq_cons.
  - by etrans.
Qed.

(** X14. Until the log is reset, every entry in it is the entry of a
    transaction that was sent on the channel, no transaction having more
    than one entry there; and once the consumer holds no transaction and
    every worker is past its [addEntry], the log holds exactly the entries
    of the transactions sent, one each, in some order. *)
Theorem log_holds_each_entry_once ls s :
  Forall (λ l, l ≠ ClearEntries) ls →
  run newEntry ls NewHarProxy = Some s →
  HarLog s ⊆+ map newEntry (published_txs ls s)
  ∧ length (published_txs ls s) = published s
  ∧ (holding s = 0%nat → all_appended s = true →
     HarLog s ≡ₚ map newEntry (published_txs ls s)).
Proof.
  intros Hls Hrun.
  destruct (tracks_run ls s Hls Hrun) as (wtx & Hlen & _ & Hwl & _ & Hpub & Hlog).
  split; [|split].
  - rewrite Hlog, Hpub. apply submseteq_map.
    etrans; [apply pick_submseteq|]. by apply submseteq_inserts_r.
  - unfold published_txs, published. by apply length_pick.
  - intros Hhold Hall. rewrite Hlog, Hpub. apply Permutation_map.
    rewrite (pick_all has_appended) by done.
    unfold holding, held in *. destruct (consumer s); try done;
      by rewrite app_nil_r.
Qed.
End instance_content.

Lemma log_holds_each_entry_once_witness :
  let ls := Samples.oneRecorded ++ Samples.secondAppended in
  let s := Samples.stateAfter ls in
  Instance.published_txs ls s = [1; 2]
  ∧ Instance.HarLog s ≡ₚ map Samples.entryOf (Instance.published_txs ls s).
Proof.
  intros ls s.
  assert (Hls : Forall (λ l, l ≠ Instance.ClearEntries) ls)
    by (repeat constructor; discriminate).
  assert (Hrun : Instance.run Samples.entryOf ls Instance.NewHarProxy = Some s)
    by (vm_compute; reflexivity).
  destruct (log_holds_each_entry_once Samples.entryOf ls s Hls Hrun)
    as (_ & _ & Hall).
  split; [vm_compute; reflexivity|].
  apply Hall; vm_compute; reflexivity.
Defined.

Lemma published_has_one_worker_witness :
  let s := Samples.stateAfter Samples.raceSchedule in
  Instance.reachable Samples.entryOf s
  ∧ Instance.published s = 2%nat
  ∧ length (Instance.workers s) = 2%nat.
Proof.
  intros s.
  assert (Hreach : Instance.reachable Samples.entryOf s)
    by (exists Samples.raceSchedule; vm_compute; reflexivity).
  pose proof (published_has_one_worker Samples.entryOf s Hreach) as Hpub.
  split; [exact Hreach|]. split; [vm_compute; reflexivity|].
  assert (Hhold : Instance.holding s = 0%nat) by (vm_compute; reflexivity).
  assert (Hp : Instance.published s = 2%nat) by (vm_compute; reflexivity).
  rewrite Hhold, Hp in Hpub. lia.
Defined.

Lemma HarLog_append_only_witness :
  let s := Samples.stateAfter Samples.oneRecorded in
  let s' := Samples.stateAfter (Samples.oneRecorded ++ Samples.secondAppended) in
  Instance.HarLog s = [1] ∧ Instance.HarLog s' = [1; 2]
  ∧ Instance.HarLog s `prefix_of` Instance.HarLog s'.
Proof.
  intros s s'.
  assert (Hls : Forall (λ l, l ≠ Instance.ClearEntries) Samples.secondAppended)
    by (repeat constructor; discriminate).
  assert (Hrun : Instance.run Samples.entryOf Samples.secondAppended s = Some s')
    by (vm_compute; reflexivity).
  split; [vm_compute; reflexivity|]. split; [vm_compute; reflexivity|].
  exact (HarLog_append_only Samples.entryOf Samples.secondAppended s s' Hls Hrun).
Defined.

Lemma nothing_published_after_close_witness :
  let s := Samples.stateAfter Samples.stopSchedule in
  Instance.cclosed (Instance.entryChannel s) = true
  ∧ ∃ s', Instance.step Samples.entryOf (Instance.Publish 0%nat) s = Some s'
          ∧ Instance.handlers s' !! 0%nat = Some Instance.SendPanicked
          ∧ Instance.published s' = Instance.published s.
Proof.
  intros s.
  assert (Hclosed : Instance.cclosed (Instance.entryChannel s) = true)
    by (vm_compute; reflexivity).
  destruct (nothing_published_after_close Samples.entryOf s Hclosed)
    as [Hrun Hsend].
  split; [exact Hclosed|].
  destruct (Hsend 0%nat 7) as (s' & Hstep & Hpanic); [vm_compute; reflexivity|].
  exists s'. split; [exact Hstep|]. split; [exact Hpanic|].
  apply (Hrun [Instance.Publish 0%nat] s'). cbn [Instance.run].
  rewrite Hstep. reflexivity.
Defined.

Lemma no_accept_after_Stop_witness :
  let s := Samples.stateAfter Samples.stopSchedule in
  Instance.reachable Samples.entryOf s
  ∧ Instance.stop_closed s = true
  ∧ Instance.step Samples.entryOf (Instance.Accept 8) s = None.
Proof.
  intros s.
  assert (Hreach : Instance.reachable Samples.entryOf s)
    by (exists Samples.stopSchedule; vm_compute; reflexivity).
  assert (Hstop : Instance.stop_closed s = true) by (vm_compute; reflexivity).
  destruct (no_accept_after_Stop Samples.entryOf s Hreach Hstop) as [_ Hno].
  split; [exact Hreach|]. split; [exact Hstop|]. apply Hno.
Defined.


(** C6 (code bug). One transaction is forwarded through the instance and
    the log is read twice, with nothing accepted or sent in between. The
    first [getHarLog] gets past [WaitForEntries] before the consumer has
    counted the transaction, answers with no entries and resets the log;
    the entry is appended afterwards and the second [getHarLog] answers
    with it. *)
Theorem getHarLog_second_read_not_empty :
  let s := Samples.stateAfter Samples.lateEntrySchedule in
  Instance.run Samples.entryOf Samples.lateEntrySchedule Instance.NewHarProxy
  = Some s
  ∧ Instance.published s = 1%nat
  ∧ Instance.responses s = [[]; [1]].
Proof. vm_compute. done. Qed.

(** The same two reads with the worker appending between the response and
    [ClearEntries] of the first: the entry is wiped and neither read
    reports it. *)
Lemma getHarLog_wipes_late_entry :
  let s := Samples.stateAfter Samples.wipedEntrySchedule in
  Instance.run Samples.entryOf Samples.wipedEntrySchedule Instance.NewHarProxy
  = Some s
  ∧ Instance.published s = 1%nat
  ∧ Instance.responses s = [[]; []]
  ∧ Instance.HarLog s = [].
Proof. vm_compute. done. Qed.
